(** * The Local Command Protocol of pyquarkchain ([quarkchain/local.py])

    A shallow embedding of the wire schema, the four command handlers, the
    embedded JSON-RPC dispatcher and the statistics aggregator, together with
    the properties the specification states about them. *)

From Stdlib Require Import ZArith QArith Strings.Byte Ascii String DecimalString Lia.
From Stdlib Require Import DecimalZ DecimalPos.
From stdpp Require Import base option list strings gmap.

Set Warnings "-register-all".
Local Open Scope Z_scope.

(** ** Python data *)

(** A [bytes] object. *)
Definition bytes := list byte.

(** A [str] object: its sequence of Unicode code points. *)
Definition str := list N.

(** A string literal of the source (ASCII text). *)
Definition lit (s : string) : str := N_of_ascii <$> list_ascii_of_string s.
Arguments lit : simpl never.

Definition byte_of_Z (z : Z) : byte := default x00 (Byte.of_N (Z.to_N z)).
Definition Z_of_byte (b : byte) : Z := Z.of_N (Byte.to_N b).

(** A raised exception (an instance of [Exception]): its class and [str(e)]. *)
Record exn := Exception { exn_class : string; exn_text : str }.

(** What running a piece of Python gives: a value, a raised exception, or
    no answer within the fuel given to a [while] loop. *)
Inductive outcome (A : Type) : Type :=
| Returns (a : A)
| Raises (e : exn)
| Diverges.
Arguments Returns {A} a.
Arguments Raises {A} e.
Arguments Diverges {A}.

#[global] Instance outcome_ret : MRet outcome := λ A a, Returns a.
#[global] Instance outcome_bind : MBind outcome := λ A B f m,
  match m with
  | Returns a => f a
  | Raises e => Raises e
  | Diverges => Diverges
  end.

Definition raise {A} (cls : string) (text : string) : outcome A :=
  Raises (Exception cls (lit text)).

(** ** Wire schema *)

(** The values wire messages are made of: integers, byte blobs, lists, and
    instances of message classes (an instance is its attribute dictionary). *)
Inductive wval : Type :=
| WInt (z : Z)
| WBytes (b : bytes)
| WList (l : list wval)
| WObj (attrs : list (string * wval)).

(** A serializer object: its [serialize] method, and its [deserialize] method,
    which reads from the front of a buffer and leaves the rest. *)
Record Serializer := {
  serialize : wval → outcome bytes;
  deserialize : bytes → outcome (wval * bytes);
}.

(** Big-endian bytes of an integer ([int.to_bytes(size, byteorder="big")]). *)
Fixpoint be_encode (size : nat) (z : Z) : bytes :=
  match size with
  | O => []
  | S k => be_encode k (z / 256) ++ [byte_of_Z (z mod 256)]
  end.

Definition be_decode (bs : bytes) : Z :=
  fold_left (λ acc b, acc * 256 + Z_of_byte b) bs 0.

(** Modelled from the spec: the fixed-width unsigned integer serializer of
    [quarkchain.core] ([uint8], [uint32]), which is not among the source files.
    "Fixed-width unsigned integers (8-bit, 32-bit) are encoded big-endian";
    "decoding a message whose byte length does not cover all declared fields
    is a decode failure". *)
Definition UintSerializer (size : nat) : Serializer := {|
  serialize v :=
    match v with
    | WInt z =>
        if decide (z < 0) then raise "OverflowError" "can't convert negative int to unsigned"
        else if decide (256 ^ Z.of_nat size ≤ z) then raise "OverflowError" "int too big to convert"
        else Returns (be_encode size z)
    | _ => raise "AttributeError" "object has no attribute 'to_bytes'"
    end;
  deserialize bs :=
    if decide (size ≤ length bs)%nat
    then Returns (WInt (be_decode (take size bs)), drop size bs)
    else raise "RuntimeError" "buffer is shorter than expected"
|}.

Definition uint8 : Serializer := UintSerializer 1.
Definition uint32 : Serializer := UintSerializer 4.

(** Modelled from the spec: the length-prefixed byte blob serializer of
    [quarkchain.core], which is not among the source files. "A length-prefixed
    byte blob is encoded as a 32-bit unsigned length followed by that many raw
    bytes." *)
Definition PreprendedSizeBytesSerializer (sizeBytes : nat) : Serializer := {|
  serialize v :=
    match v with
    | WBytes b =>
        hdr ← serialize (UintSerializer sizeBytes) (WInt (Z.of_nat (length b)));
        Returns (hdr ++ b)
    | _ => raise "TypeError" "object has no len()"
    end;
  deserialize bs :=
    '(n, rest) ← deserialize (UintSerializer sizeBytes) bs;
    match n with
    | WInt n =>
        if decide (Z.to_nat n ≤ length rest)%nat
        then Returns (WBytes (take (Z.to_nat n) rest), drop (Z.to_nat n) rest)
        else raise "RuntimeError" "buffer is shorter than expected"
    | _ => raise "TypeError" "size is not an integer"
    end
|}.

(** Modelled from the spec: the elements of a length-prefixed list, one after
    the other ([quarkchain.core] is not among the source files). *)
Fixpoint serialize_items (ser : Serializer) (l : list wval) : outcome bytes :=
  match l with
  | [] => Returns []
  | v :: l' =>
      b ← serialize ser v;
      bs ← serialize_items ser l';
      Returns (b ++ bs)
  end.

(** Modelled from the spec: reading [count] elements of a length-prefixed
    list ([quarkchain.core] is not among the source files). *)
Fixpoint deserialize_items (ser : Serializer) (count : nat) (bs : bytes)
  : outcome (list wval * bytes) :=
  match count with
  | O => Returns ([], bs)
  | S k =>
      '(v, rest) ← deserialize ser bs;
      '(vs, rest') ← deserialize_items ser k rest;
      Returns (v :: vs, rest')
  end.

(** Modelled from the spec: the length-prefixed list serializer of
    [quarkchain.core], which is not among the source files. "A length-prefixed
    list is encoded as a 32-bit unsigned count followed by that many encoded
    elements, each using the element type's own schema." *)
Definition PreprendedSizeListSerializer (sizeBytes : nat) (ser : Serializer) : Serializer := {|
  serialize v :=
    match v with
    | WList l =>
        hdr ← serialize (UintSerializer sizeBytes) (WInt (Z.of_nat (length l)));
        body ← serialize_items ser l;
        Returns (hdr ++ body)
    | _ => raise "TypeError" "object has no len()"
    end;
  deserialize bs :=
    '(n, rest) ← deserialize (UintSerializer sizeBytes) bs;
    match n with
    | WInt n =>
        '(vs, rest') ← deserialize_items ser (Z.to_nat n) rest;
        Returns (WList vs, rest')
    | _ => raise "TypeError" "size is not an integer"
    end
|}.

(** The objects a [FIELDS] declaration is written with: string literals,
    serializers and tuples of these. *)
Inductive pyitem : Type :=
| IStr (s : string)
| ISer (ser : Serializer)
| ITuple (items : list pyitem).

(** [for x in obj]: the elements a [for] loop visits. *)
Definition py_iter (obj : pyitem) : outcome (list pyitem) :=
  match obj with
  | ITuple items => Returns items
  | IStr s => Returns ((λ c, IStr (String c EmptyString)) <$> list_ascii_of_string s)
  | ISer _ => raise "TypeError" "object is not iterable"
  end.

(** [name, ser = entry]: unpacking into exactly two targets. *)
Definition unpack2 (entry : pyitem) : outcome (pyitem * pyitem) :=
  elems ← py_iter entry;
  match elems with
  | [a; b] => Returns (a, b)
  | _ :: _ :: _ :: _ => raise "ValueError" "too many values to unpack (expected 2)"
  | _ => raise "ValueError" "not enough values to unpack"
  end.

Definition as_serializer (x : pyitem) : outcome Serializer :=
  match x with
  | ISer ser => Returns ser
  | _ => raise "AttributeError" "object has no attribute 'serialize'"
  end.

Definition as_name (x : pyitem) : outcome string :=
  match x with
  | IStr s => Returns s
  | _ => raise "TypeError" "attribute name must be string"
  end.

Fixpoint assoc `{EqDecision K} {A} (name : K) (attrs : list (K * A)) : option A :=
  match attrs with
  | [] => None
  | (k, v) :: attrs' => if decide (k = name) then Some v else assoc name attrs'
  end.

(** [d[name] = v] on a dictionary kept in insertion order. *)
Fixpoint assoc_set `{EqDecision K} {A} (name : K) (v : A) (attrs : list (K * A)) : list (K * A) :=
  match attrs with
  | [] => [(name, v)]
  | (k, v') :: attrs' =>
      if decide (k = name) then (k, v) :: attrs' else (k, v') :: assoc_set name v attrs'
  end.

Definition getattr (self : wval) (name : string) : outcome wval :=
  match self with
  | WObj attrs =>
      match assoc name attrs with
      | Some v => Returns v
      | None => raise "AttributeError" "object has no such attribute"
      end
  | _ => raise "AttributeError" "object has no such attribute"
  end.

(** Modelled from the spec: the loop of [Serializable.serialize] over the
    entries of [FIELDS] ([quarkchain.core] is not among the source files): each
    entry is unpacked as a (name, serializer) pair and the attribute of that
    name is serialized, the results concatenated in order. *)
Fixpoint serialize_fields (entries : list pyitem) (self : wval) : outcome bytes :=
  match entries with
  | [] => Returns []
  | entry :: entries' =>
      '(name, ser) ← unpack2 entry;
      ser ← as_serializer ser;
      name ← as_name name;
      v ← getattr self name;
      b ← serialize ser v;
      bs ← serialize_fields entries' self;
      Returns (b ++ bs)
  end.

(** Modelled from the spec: the loop of [Serializable.deserialize] over the
    entries of [FIELDS] ([quarkchain.core] is not among the source files): each
    field is read from the front of what is left of the buffer and kept under
    its name. *)
Fixpoint deserialize_fields (entries : list pyitem) (kwargs : list (string * wval)) (bs : bytes)
  : outcome (wval * bytes) :=
  match entries with
  | [] => Returns (WObj kwargs, bs)
  | entry :: entries' =>
      '(name, ser) ← unpack2 entry;
      ser ← as_serializer ser;
      '(v, rest) ← deserialize ser bs;
      name ← as_name name;
      deserialize_fields entries' (assoc_set name v kwargs) rest
  end.

(** Modelled from the spec: [Serializable.serialize] of [quarkchain.core],
    the base class of every message class, which is not among the source
    files. "Each message type serializes as a concatenation of its fields in
    declared order, with no padding and no self-describing type tags": the
    class's [FIELDS] is walked as (name, serializer) pairs. *)
Definition Serializable_serialize (FIELDS : pyitem) (self : wval) : outcome bytes :=
  entries ← py_iter FIELDS;
  serialize_fields entries self.

(** Modelled from the spec: [Serializable.deserialize] of [quarkchain.core],
    which is not among the source files: the fields are read in declared order
    and handed to the class's constructor by name. *)
Definition Serializable_deserialize (FIELDS : pyitem) (bs : bytes) : outcome (wval * bytes) :=
  entries ← py_iter FIELDS;
  deserialize_fields entries [] bs.

(** Modelled from the spec: a message class used as the serializer of a field
    or of a list element, as [quarkchain.core] lets a [Serializable] subclass
    be used; the class is not among the source files. *)
Definition class_serializer (FIELDS : pyitem) : Serializer := {|
  serialize := Serializable_serialize FIELDS;
  deserialize := Serializable_deserialize FIELDS
|}.

(** The [FIELDS] of the eight message classes, as [local.py] declares them.
    [Address] and [Transaction] are classes of [quarkchain.core]. *)
Section WireSchema.
Variables Address Transaction : Serializer.

Definition GetBlockTemplateRequest_FIELDS : pyitem :=
  ITuple [ ITuple [IStr "address"; ISer Address];
           ITuple [IStr "includeRoot"; ISer uint8];
           ITuple [IStr "shardMaskList"; ISer (PreprendedSizeListSerializer 4 uint32)] ].

Definition GetBlockTemplateResponse_FIELDS : pyitem :=
  ITuple [ ITuple [IStr "isRootBlock"; ISer uint8];
           ITuple [IStr "blockData"; ISer (PreprendedSizeBytesSerializer 4)] ].

Definition SubmitNewBlockRequest_FIELDS : pyitem :=
  ITuple [ ITuple [IStr "isRootBlock"; ISer uint8];
           ITuple [IStr "blockData"; ISer (PreprendedSizeBytesSerializer 4)] ].

Definition SubmitNewBlockResponse_FIELDS : pyitem :=
  ITuple [ ITuple [IStr "resultCode"; ISer uint8];
           ITuple [IStr "resultMessage"; ISer (PreprendedSizeBytesSerializer 4)] ].

Definition NewTransaction_FIELDS : pyitem :=
  ITuple [ ITuple [IStr "shardId"; ISer uint32];
           ITuple [IStr "transaction"; ISer Transaction] ].

Definition AddNewTransactionListRequest_FIELDS : pyitem :=
  ITuple [ ITuple [IStr "txList";
                   ISer (PreprendedSizeListSerializer 4 (class_serializer NewTransaction_FIELDS))] ].

(** [(("numTxAdded", uint32))]: the parentheses only group, so this is the
    pair itself, not a tuple holding the pair. *)
Definition AddNewTransactionListResponse_FIELDS : pyitem :=
  ITuple [IStr "numTxAdded"; ISer uint32].

Definition JsonRpcRequest_FIELDS : pyitem :=
  ITuple [ ITuple [IStr "jrpcRequest"; ISer (PreprendedSizeBytesSerializer 4)] ].

Definition JsonRpcResponse_FIELDS : pyitem :=
  ITuple [ ITuple [IStr "jrpcResponse"; ISer (PreprendedSizeBytesSerializer 4)] ].
End WireSchema.

(** ** The collaborators of the handlers *)

(** The block and transaction classes of [quarkchain.core], with the methods
    [local.py] calls on them. *)
Class Core := {
  RootBlock : Type;
  MinorBlock : Type;
  Transaction : Type;
  RootBlock_deserialize : bytes → outcome RootBlock;
  RootBlock_serialize : RootBlock → bytes;
  MinorBlock_deserialize : bytes → outcome MinorBlock;
  MinorBlock_serialize : MinorBlock → bytes;
  txList : MinorBlock → list Transaction;
}.

(** The attributes of a root block header that [local.py] reads. *)
Module RootBlockHeader.
Record t := new { height : Z; difficulty : Z }.
End RootBlockHeader.

(** The attributes of a minor block header that [local.py] reads. *)
Module MinorBlockHeader.
Record t := new { createTime : Z; height : Z; difficulty : Z; getHash : bytes }.
End MinorBlockHeader.

(** The block [findBestBlockToMine] hands out. *)
Inductive Block `{Core} : Type :=
| ARootBlock (b : RootBlock)
| AMinorBlock (b : MinorBlock).
Arguments ARootBlock {_} b.
Arguments AMinorBlock {_} b.

(** [block.serialize()]; the block is [None] when there is nothing to mine. *)
Definition Block_serialize `{Core} (block : option Block) : outcome bytes :=
  match block with
  | Some (ARootBlock b) => Returns (RootBlock_serialize b)
  | Some (AMinorBlock b) => Returns (MinorBlock_serialize b)
  | None => raise "AttributeError" "'NoneType' object has no attribute 'serialize'"
  end.

(** The node a [LocalServer] is attached to: the state engine
    ([self.network.qcState]), the block store ([self.env.db]) and the clock
    ([time.time()], whose [n]-th reading is [time_time n]: the rational number
    the float denotes). [addTransactionToQueue] receives the arguments of the
    call. *)
Class Node `{Core} := {
  findBestBlockToMine : option bool * option Block;
  appendRootBlock : RootBlock → option str;
  appendMinorBlock : MinorBlock → option str;
  addTransactionToQueue : list Transaction → outcome ();
  getShardSize : Z;
  getRootBlockTip : RootBlockHeader.t;
  getMinorBlockTip : Z → MinorBlockHeader.t;
  getMinorBlockHeaderByHeight : Z → Z → MinorBlockHeader.t;
  getMinorBlockByHash : bytes → MinorBlock;
  time_time : nat → Q;
}.

(** The calls that change the state engine, as the handlers issue them. *)
Inductive call `{Core} : Type :=
| AddTransactionToQueue (args : list Transaction)
| AppendRootBlock (b : RootBlock)
| AppendMinorBlock (b : MinorBlock).
Arguments AddTransactionToQueue {_} args.
Arguments AppendRootBlock {_} b.
Arguments AppendMinorBlock {_} b.

(** What a handler changes: how often the clock was read, and the calls made
    on the state engine so far (oldest first). *)
Record world `{Core} := World { ticks : nat; calls : list call }.
Arguments World {_} ticks calls.

(** A handler body: a state-passing computation that may raise. An exception
    keeps the state reached when it was raised. *)
Definition M `{Core} (A : Type) : Type := world → outcome A * world.

#[global] Instance M_ret `{Core} : MRet M := λ A a w, (Returns a, w).
#[global] Instance M_bind `{Core} : MBind M := λ A B f m w,
  match m w with
  | (Returns a, w') => f a w'
  | (Raises e, w') => (Raises e, w')
  | (Diverges, w') => (Diverges, w')
  end.

Definition lift `{Core} {A} (o : outcome A) : M A := λ w, (o, w).

(** [try: body except Exception as e: handler(e)]. *)
Definition try_except `{Core} {A} (body : M A) (handler : exn → M A) : M A := λ w,
  match body w with
  | (Raises e, w') => handler e w'
  | r => r
  end.

Fixpoint for_each `{Core} {A} (l : list A) (body : A → M ()) : M () :=
  match l with
  | [] => mret ()
  | x :: l' => body x ≫= λ _, for_each l' body
  end.

Definition log_call `{Core} (c : call) : M () := λ w,
  (Returns (), World (ticks w) (calls w ++ [c])).

Definition qc_appendRootBlock `{Node} (b : RootBlock) : M (option str) :=
  log_call (AppendRootBlock b) ≫= λ _, mret (appendRootBlock b).

Definition qc_appendMinorBlock `{Node} (b : MinorBlock) : M (option str) :=
  log_call (AppendMinorBlock b) ≫= λ _, mret (appendMinorBlock b).

Definition qc_addTransactionToQueue `{Node} (args : list Transaction) : M () :=
  log_call (AddTransactionToQueue args) ≫= λ _, lift (addTransactionToQueue args).

(** [time.time()]. *)
Definition time_now `{Node} : M Q := λ w,
  (Returns (time_time (ticks w)), World (S (ticks w)) (calls w)).

(** [bytes(s, "ascii")]. The text of the exception is abridged: CPython also
    names the character and its position. *)
Definition ascii_encode (s : str) : outcome bytes :=
  if forallb (λ c, c <? 128)%N s
  then Returns ((λ c, byte_of_Z (Z.of_N c)) <$> s)
  else raise "UnicodeEncodeError" "'ascii' codec can't encode character: ordinal not in range(128)".

(** ** Messages, as the handlers see them *)

Module GetBlockTemplateRequest.
Record t := new { address : bytes; includeRoot : Z; shardMaskList : list Z }.
End GetBlockTemplateRequest.

Module GetBlockTemplateResponse.
Record t := new { isRootBlock : Z; blockData : bytes }.
End GetBlockTemplateResponse.

Module SubmitNewBlockRequest.
Record t := new { isRootBlock : Z; blockData : bytes }.
End SubmitNewBlockRequest.

Module SubmitNewBlockResponse.
Record t := new { resultCode : Z; resultMessage : bytes }.
End SubmitNewBlockResponse.

Module NewTransaction.
Record t `{Core} := new { shardId : Z; transaction : Transaction }.
Arguments new {_} shardId transaction.
End NewTransaction.

Module AddNewTransactionListRequest.
Record t `{Core} := new { txList : list NewTransaction.t }.
Arguments new {_} txList.
End AddNewTransactionListRequest.

Module AddNewTransactionListResponse.
Record t := new { numTxAdded : Z }.
End AddNewTransactionListResponse.

Module JsonRpcRequest.
Record t := new { jrpcRequest : bytes }.
End JsonRpcRequest.

Module JsonRpcResponse.
Record t := new { jrpcResponse : bytes }.
End JsonRpcResponse.

(** ** Command handlers *)

(** The line the handler prints about the block it hands out is left out. *)
Definition handleGetBlockTemplateRequest `{Node} (request : GetBlockTemplateRequest.t)
  : M GetBlockTemplateResponse.t :=
  let '(isRootBlock, block) := findBestBlockToMine in
  match isRootBlock with
  | None => mret (GetBlockTemplateResponse.new 0 [])
  | Some true =>
      data ← lift (Block_serialize block);
      mret (GetBlockTemplateResponse.new 1 data)
  | Some false =>
      data ← lift (Block_serialize block);
      mret (GetBlockTemplateResponse.new 0 data)
  end.

Definition handleSubmitNewBlockRequest `{Node} (request : SubmitNewBlockRequest.t)
  : M SubmitNewBlockResponse.t :=
  if decide (SubmitNewBlockRequest.isRootBlock request ≠ 0) then
    match RootBlock_deserialize (SubmitNewBlockRequest.blockData request) with
    | Raises e =>
        text ← lift (ascii_encode (exn_text e));
        mret (SubmitNewBlockResponse.new 1 text)
    | Diverges => lift Diverges
    | Returns rBlock =>
        msg ← qc_appendRootBlock rBlock;
        match msg with
        | None => mret (SubmitNewBlockResponse.new 0 [])
        | Some msg =>
            text ← lift (ascii_encode msg);
            mret (SubmitNewBlockResponse.new 1 text)
        end
    end
  else
    match MinorBlock_deserialize (SubmitNewBlockRequest.blockData request) with
    | Raises e =>
        text ← lift (ascii_encode (exn_text e));
        mret (SubmitNewBlockResponse.new 1 text)
    | Diverges => lift Diverges
    | Returns mBlock =>
        msg ← qc_appendMinorBlock mBlock;
        match msg with
        | None => mret (SubmitNewBlockResponse.new 0 [])
        | Some msg =>
            text ← lift (ascii_encode msg);
            mret (SubmitNewBlockResponse.new 1 text)
        end
    end.

Definition handleAddNewTransactionListRequest `{Node} (request : AddNewTransactionListRequest.t)
  : M AddNewTransactionListResponse.t :=
  for_each (AddNewTransactionListRequest.txList request)
           (λ newTx, qc_addTransactionToQueue []) ≫= λ _,
  mret (AddNewTransactionListResponse.new
          (Z.of_nat (length (AddNewTransactionListRequest.txList request)))).

(** ** JSON values and [json.dumps] *)

(** The Python values JSON texts denote. [PyFloat num den] is the float
    nearest to [num / den]; a dictionary keeps its items in insertion order. *)
Inductive pyval : Type :=
| PyNone
| PyBool (b : bool)
| PyInt (z : Z)
| PyFloat (num den : Z)
| PyStr (s : str)
| PyList (l : list pyval)
| PyDict (items : list (str * pyval)).

(** The standard library functions the handlers rely on without this
    development modelling their insides: UTF-8 decoding, JSON parsing, and the
    [repr] of a float (ASCII text, as [json.dumps] emits it). *)
Class Python := {
  utf8_decode : bytes → outcome str;
  json_loads : str → outcome pyval;
  float_repr : Z → Z → str;
  float_repr_ascii : ∀ num den, forallb (λ c, c <? 128)%N (float_repr num den) = true;
}.

Definition str_of_Z (z : Z) : str := lit (NilZero.string_of_int (Z.to_int z)).

Definition hex_digit (d : N) : N := (if d <? 10 then 48 + d else 87 + d)%N.

(** ['{0:04x}'.format(n)] for [n] below 65536. *)
Definition hex4 (n : N) : str :=
  [ hex_digit (n / 4096 mod 16); hex_digit (n / 256 mod 16);
    hex_digit (n / 16 mod 16); hex_digit (n mod 16) ]%N.

(** The escape of one code point ([ensure_ascii] is on by default). *)
Definition json_escape_char (c : N) : str :=
  (if decide (c = 34) then lit "\" ++ [34]
   else if decide (c = 92) then lit "\\"
   else if decide (c = 10) then lit "\n"
   else if decide (c = 13) then lit "\r"
   else if decide (c = 9) then lit "\t"
   else if decide (c = 8) then lit "\b"
   else if decide (c = 12) then lit "\f"
   else if (32 <=? c) && (c <=? 126) then [c]
   else if c <? 65536 then lit "\u" ++ hex4 c
   else
     let n := c - 65536 in
     let s1 := N.lor 55296 (N.land (N.shiftr n 10) 1023) in
     let s2 := N.lor 56320 (N.land n 1023) in
     lit "\u" ++ hex4 s1 ++ lit "\u" ++ hex4 s2)%N.

Definition json_string (s : str) : str :=
  [34%N] ++ concat (json_escape_char <$> s) ++ [34%N].

Fixpoint join (sep : str) (parts : list str) : str :=
  match parts with
  | [] => []
  | [p] => p
  | p :: parts' => p ++ sep ++ join sep parts'
  end.

Section Dumps.
Context `{Python}.

(** [json.dumps(v)] with the default separators. *)
Fixpoint json_dumps (v : pyval) : str :=
  match v with
  | PyNone => lit "null"
  | PyBool true => lit "true"
  | PyBool false => lit "false"
  | PyInt z => str_of_Z z
  | PyFloat num den => float_repr num den
  | PyStr s => json_string s
  | PyList l => lit "[" ++ join (lit ", ") (map json_dumps l) ++ lit "]"
  | PyDict items =>
      lit "{" ++
      join (lit ", ")
           (map (λ kv, match kv with (k, x) => json_string k ++ lit ": " ++ json_dumps x end)
                items) ++
      lit "}"
  end.
End Dumps.

(** [s.encode()]: UTF-8. Surrogate code points have no encoding. *)
Definition utf8_encode_char (c : N) : option bytes :=
  let b (n : N) := byte_of_Z (Z.of_N n) in
  (if c <? 128 then Some [b c]
   else if c <? 2048 then Some [b (192 + c / 64); b (128 + c mod 64)]
   else if c <? 65536 then
     if (55296 <=? c) && (c <=? 57343) then None
     else Some [b (224 + c / 4096); b (128 + c / 64 mod 64); b (128 + c mod 64)]
   else if c <? 1114112 then
     Some [b (240 + c / 262144); b (128 + c / 4096 mod 64);
           b (128 + c / 64 mod 64); b (128 + c mod 64)]
   else None)%N.

Fixpoint utf8_encode (s : str) : outcome bytes :=
  match s with
  | [] => Returns []
  | c :: s' =>
      match utf8_encode_char c with
      | Some bs => rest ← utf8_encode s'; Returns (bs ++ rest)
      | None => raise "UnicodeEncodeError" "'utf-8' codec can't encode character: surrogates not allowed"
      end
  end.

(** ** Operators on parsed JSON *)

Fixpoint is_prefix (p s : str) : bool :=
  match p, s with
  | [], _ => true
  | a :: p', b :: s' => bool_decide (a = b) && is_prefix p' s'
  | _ :: _, [] => false
  end.

Fixpoint is_substr (p s : str) : bool :=
  is_prefix p s || match s with [] => false | _ :: s' => is_substr p s' end.

(** [v == s] for a string literal [s]. *)
Definition py_eq_str (v : pyval) (s : str) : bool :=
  match v with
  | PyStr s' => bool_decide (s' = s)
  | _ => false
  end.

(** [key in container] for a string literal [key]. *)
Definition py_contains (container : pyval) (key : str) : outcome bool :=
  match container with
  | PyDict items => Returns (bool_decide (is_Some (assoc key items)))
  | PyList l => Returns (existsb (λ x, py_eq_str x key) l)
  | PyStr s => Returns (is_substr key s)
  | _ => raise "TypeError" "argument is not iterable"
  end.

(** [container[key]] for a string literal [key]. *)
Definition py_getitem (container : pyval) (key : str) : outcome pyval :=
  match container with
  | PyDict items =>
      match assoc key items with
      | Some v => Returns v
      | None => raise "KeyError" "key"
      end
  | PyList _ => raise "TypeError" "list indices must be integers or slices, not str"
  | PyStr _ => raise "TypeError" "string indices must be integers"
  | _ => raise "TypeError" "object is not subscriptable"
  end.

(** [key in table] for a dictionary keyed by strings: the key is hashed. *)
Definition py_in_table {A} (key : pyval) (table : gmap str A) : outcome bool :=
  match key with
  | PyList _ => raise "TypeError" "unhashable type: 'list'"
  | PyDict _ => raise "TypeError" "unhashable type: 'dict'"
  | PyStr s => Returns (bool_decide (is_Some (table !! s)))
  | _ => Returns false
  end.

(** [table[key]]. *)
Definition py_table_getitem {A} (table : gmap str A) (key : pyval) : outcome A :=
  match key with
  | PyList _ => raise "TypeError" "unhashable type: 'list'"
  | PyDict _ => raise "TypeError" "unhashable type: 'dict'"
  | PyStr s =>
      match table !! s with
      | Some x => Returns x
      | None => raise "KeyError" "key"
      end
  | _ => raise "KeyError" "key"
  end.

(** [range(n)]. *)
Definition range (n : Z) : list Z := Z.of_nat <$> seq 0 (Z.to_nat n).

Fixpoint sum_Z (l : list Z) : Z :=
  match l with
  | [] => 0
  | x :: l' => x + sum_Z l'
  end.

(** [statistics.mean] on integers: an integer when the division is exact,
    otherwise a float. *)
Definition statistics_mean (data : list Z) : outcome pyval :=
  match data with
  | [] => raise "StatisticsError" "mean requires at least one data point"
  | _ =>
      let total := sum_Z data in
      let n := Z.of_nat (length data) in
      if decide (total mod n = 0) then Returns (PyInt (total / n))
      else Returns (PyFloat total n)
  end.

(** ** Stats aggregator *)

Fixpoint foldM {A B} (f : B → A → outcome B) (acc : B) (l : list A) : outcome B :=
  match l with
  | [] => Returns acc
  | x :: l' => acc' ← f acc x; foldM f acc' l'
  end.

Section Stats.
Context `{Node}.

(** The [while] loop of [countMinorBlockHeaderStatsIn] on one shard, entered
    with [header] and [metric]; [fuel] bounds the number of tests of the
    loop condition. *)
Fixpoint walk_headers (fuel : nat) (now : Q) (sec : Z) (func : MinorBlockHeader.t → Z)
         (shardId : Z) (header : MinorBlockHeader.t) (metric : Z) : outcome Z :=
  match fuel with
  | O => Diverges
  | S fuel' =>
      if Qle_bool (now - inject_Z sec) (inject_Z (MinorBlockHeader.createTime header)) then
        let metric := metric + func header in
        if decide (MinorBlockHeader.height header = 0) then Returns metric
        else walk_headers fuel' now sec func shardId
               (getMinorBlockHeaderByHeight shardId (MinorBlockHeader.height header - 1))
               metric
      else Returns metric
  end.

Definition countMinorBlockHeaderStatsIn (fuel : nat) (sec : Z)
           (func : MinorBlockHeader.t → Z) : M Z :=
  now ← time_now;
  lift (foldM (λ metric shardId,
                 walk_headers fuel now sec func shardId (getMinorBlockTip shardId) metric)
              0 (range getShardSize)).

(** The [while] loop of [countMinorBlockStatsIn]: as above, with the block
    of each header fetched from the store. *)
Fixpoint walk_blocks (fuel : nat) (now : Q) (sec : Z) (func : MinorBlock → Z)
         (shardId : Z) (header : MinorBlockHeader.t) (metric : Z) : outcome Z :=
  match fuel with
  | O => Diverges
  | S fuel' =>
      if Qle_bool (now - inject_Z sec) (inject_Z (MinorBlockHeader.createTime header)) then
        let block := getMinorBlockByHash (MinorBlockHeader.getHash header) in
        let metric := metric + func block in
        if decide (MinorBlockHeader.height header = 0) then Returns metric
        else walk_blocks fuel' now sec func shardId
               (getMinorBlockHeaderByHeight shardId (MinorBlockHeader.height header - 1))
               metric
      else Returns metric
  end.

Definition countMinorBlockStatsIn (fuel : nat) (sec : Z) (func : MinorBlock → Z) : M Z :=
  now ← time_now;
  lift (foldM (λ metric shardId,
                 walk_blocks fuel now sec func shardId (getMinorBlockTip shardId) metric)
              0 (range getShardSize)).

Definition jrpcGetStats (fuel : nat) (params : pyval) : M pyval :=
  let shardSize := PyInt getShardSize in
  let rootHeight := PyInt (RootBlockHeader.height getRootBlockTip) in
  let rootDifficulty := PyInt (RootBlockHeader.difficulty getRootBlockTip) in
  avgMinorHeight ← lift (statistics_mean
    ((λ shardId, MinorBlockHeader.height (getMinorBlockTip shardId)) <$> range getShardSize));
  avgMinorDifficulty ← lift (statistics_mean
    ((λ shardId, MinorBlockHeader.difficulty (getMinorBlockTip shardId)) <$> range getShardSize));
  minorBlocksIn60s ← countMinorBlockHeaderStatsIn fuel 60 (λ h, 1);
  minorBlocksIn300s ← countMinorBlockHeaderStatsIn fuel 300 (λ h, 1);
  transactionsIn60s ← countMinorBlockStatsIn fuel 60 (λ b, Z.of_nat (length (txList b)));
  transactionsIn300s ← countMinorBlockStatsIn fuel 300 (λ b, Z.of_nat (length (txList b)));
  mret (PyDict [
    (lit "shardSize", shardSize);
    (lit "rootHeight", rootHeight);
    (lit "rootDifficulty", rootDifficulty);
    (lit "avgMinorHeight", avgMinorHeight);
    (lit "avgMinorDifficulty", avgMinorDifficulty);
    (lit "minorBlocksIn60s", PyInt minorBlocksIn60s);
    (lit "minorBlocksIn300s", PyInt minorBlocksIn300s);
    (lit "transactionsIn60s", PyInt transactionsIn60s);
    (lit "transactionsIn300s", PyInt transactionsIn300s) ]).
End Stats.

(** ** JSON-RPC sub-protocol *)

Section JsonRpc.
Context `{Node} `{Python}.

(** [response["id"] = jrpcId] on the dictionary under construction. *)
Definition jrpcError_response (errorCode : Z) (jrpcId : pyval) : pyval :=
  let response :=
    [ (lit "jsonrpc", PyStr (lit "2.0"));
      (lit "error", PyDict [(lit "code", PyInt errorCode)]) ] in
  match jrpcId with
  | PyNone => PyDict response
  | _ => PyDict (assoc_set (lit "id") jrpcId response)
  end.

Definition jrpcError (errorCode : Z) (jrpcId : pyval) : outcome JsonRpcResponse.t :=
  payload ← utf8_encode (json_dumps (jrpcError_response errorCode jrpcId));
  Returns (JsonRpcResponse.new payload).

Definition JRPC_MAP (fuel : nat) : gmap str (pyval → M pyval) :=
  {[ lit "getStats" := jrpcGetStats fuel ]}.

Definition handleJsonRpcRequest (fuel : nat) (request : JsonRpcRequest.t)
  : M JsonRpcResponse.t :=
  match text ← utf8_decode (JsonRpcRequest.jrpcRequest request); json_loads text with
  | Raises e => lift (jrpcError (-32700) PyNone)
  | Diverges => lift Diverges
  | Returns jrpcRequest =>
      has_jsonrpc ← lift (py_contains jrpcRequest (lit "jsonrpc"));
      bad_version ←
        (if negb has_jsonrpc then mret true
         else v ← lift (py_getitem jrpcRequest (lit "jsonrpc"));
              mret (negb (py_eq_str v (lit "2.0"))));
      if (bad_version : bool) then lift (jrpcError (-32600) PyNone) else
      has_method ← lift (py_contains jrpcRequest (lit "method"));
      if negb has_method then lift (jrpcError (-32600) PyNone) else
      method ← lift (py_getitem jrpcRequest (lit "method"));
      known ← lift (py_in_table method (JRPC_MAP fuel));
      if negb known then lift (jrpcError (-32601) PyNone) else
      has_params ← lift (py_contains jrpcRequest (lit "params"));
      params ← (if negb has_params then mret PyNone
                else lift (py_getitem jrpcRequest (lit "params")));
      try_except
        (handler ← lift (py_table_getitem (JRPC_MAP fuel) method);
         jrpcResponse ← handler params;
         payload ← lift (utf8_encode (json_dumps jrpcResponse));
         mret (JsonRpcResponse.new payload))
        (λ e, lift (jrpcError (-32603) PyNone))
  end.
End JsonRpc.

(** ** Op-codes and dispatch tables *)

(** The tables map op-codes to message classes and to pairs of a response
    op-code and a handler; classes and handlers stand here by name. No key
    is written twice in either table. *)
Module LocalCommandOp.
Definition GET_BLOCK_TEMPLATE_REQUEST : Z := 0.
Definition GET_BLOCK_TEMPLATE_RESPONSE : Z := 1.
Definition SUBMIT_NEW_BLOCK_REQUEST : Z := 2.
Definition SUBMIT_NEW_BLOCK_RESPONSE : Z := 3.
Definition ADD_NEW_TRANSACTION_LIST_REQUEST : Z := 4.
Definition ADD_NEW_TRANSACTION_LIST_RESPONSE : Z := 5.
Definition JSON_RPC_REQUEST : Z := 6.
Definition JSON_RPC_RESPONSE : Z := 7.
End LocalCommandOp.

(** The message classes, as the tables name them. *)
Inductive message_class : Type :=
| GetBlockTemplateRequest_class
| GetBlockTemplateResponse_class
| SubmitNewBlockRequest_class
| SubmitNewBlockResponse_class
| AddNewTransactionListRequest_class
| AddNewTransactionListResponse_class
| JsonRpcRequest_class
| JsonRpcResponse_class.

(** The handlers of [LocalServer], as the tables name them. *)
Inductive handler_name : Type :=
| handleGetBlockTemplateRequest_name
| handleSubmitNewBlockRequest_name
| handleAddNewTransactionListRequest_name
| handleJsonRpcRequest_name.

Definition OP_SER_MAP : gmap Z message_class :=
  list_to_map [
    (LocalCommandOp.GET_BLOCK_TEMPLATE_REQUEST, GetBlockTemplateRequest_class);
    (LocalCommandOp.GET_BLOCK_TEMPLATE_RESPONSE, GetBlockTemplateResponse_class);
    (LocalCommandOp.SUBMIT_NEW_BLOCK_REQUEST, SubmitNewBlockRequest_class);
    (LocalCommandOp.SUBMIT_NEW_BLOCK_RESPONSE, SubmitNewBlockResponse_class);
    (LocalCommandOp.ADD_NEW_TRANSACTION_LIST_REQUEST, AddNewTransactionListRequest_class);
    (LocalCommandOp.ADD_NEW_TRANSACTION_LIST_RESPONSE, AddNewTransactionListResponse_class);
    (LocalCommandOp.JSON_RPC_REQUEST, JsonRpcRequest_class);
    (LocalCommandOp.JSON_RPC_RESPONSE, JsonRpcResponse_class) ].

Definition OP_RPC_MAP : gmap Z (Z * handler_name) :=
  list_to_map [
    (LocalCommandOp.GET_BLOCK_TEMPLATE_REQUEST,
     (LocalCommandOp.GET_BLOCK_TEMPLATE_RESPONSE, handleGetBlockTemplateRequest_name));
    (LocalCommandOp.SUBMIT_NEW_BLOCK_REQUEST,
     (LocalCommandOp.SUBMIT_NEW_BLOCK_RESPONSE, handleSubmitNewBlockRequest_name));
    (LocalCommandOp.ADD_NEW_TRANSACTION_LIST_REQUEST,
     (LocalCommandOp.ADD_NEW_TRANSACTION_LIST_RESPONSE, handleAddNewTransactionListRequest_name));
    (LocalCommandOp.JSON_RPC_REQUEST,
     (LocalCommandOp.JSON_RPC_RESPONSE, handleJsonRpcRequest_name)) ].

(** ** Cluster configuration *)

(** [create_cluster_config] of [cluster/utils.py]. [is_p2] is imported from
    [quarkchain.utils] and is a parameter here; [ip] and [p2pPort] are passed
    through as they come, and [dbPrefix] is given by the caller (its default
    is the empty string). The line printed on refusal is left out. *)
Definition create_cluster_config (is_p2 : Z → bool) (slaveCount : Z) (ip p2pPort : pyval)
           (clusterPortStart : Z) (dbPrefix : str) : pyval :=
  if bool_decide (slaveCount ≤ 0) || negb (is_p2 slaveCount) then PyNone
  else
    PyDict [
      (lit "master",
       PyDict [ (lit "ip", ip);
                (lit "port", PyInt clusterPortStart);
                (lit "db_path", PyStr (dbPrefix ++ lit "m"));
                (lit "server_port", p2pPort) ]);
      (lit "slaves",
       PyList ((λ i,
                  let mask := Z.lor i slaveCount in
                  PyDict [ (lit "id", PyStr (lit "S" ++ str_of_Z i));
                           (lit "ip", ip);
                           (lit "port", PyInt (clusterPortStart + i + 1));
                           (lit "shard_masks", PyList [PyInt mask]);
                           (lit "db_path", PyStr (dbPrefix ++ str_of_Z i)) ])
                 <$> range slaveCount)) ].

(** ** Notions the properties are stated with *)

(** Decoding consumes a prefix of the buffer, and encoding the decoded value
    gives that prefix back. *)
Definition round_trips (ser : Serializer) : Prop :=
  ∀ bs v rest, deserialize ser bs = Returns (v, rest) →
    ∃ consumed, bs = consumed ++ rest ∧ serialize ser v = Returns consumed.

(** A declaration of fields as it is meant: pairs of a name and a serializer
    that round-trips, no name twice. *)
Inductive fields_ok : list pyitem → list string → Prop :=
| fields_ok_nil : fields_ok [] []
| fields_ok_cons name ser entries names :
    round_trips ser → name ∉ names → fields_ok entries names →
    fields_ok (ITuple [IStr name; ISer ser] :: entries) (name :: names).


Definition is_ascii (s : str) : bool := forallb (λ c, c <? 128)%N s.

(** The bytes of an ASCII string. *)
Definition ascii_bytes (s : str) : bytes := (λ c, byte_of_Z (Z.of_N c)) <$> s.

(** A JSON text written with apostrophes where JSON has double quotes. *)
Definition json_lit (s : string) : str :=
  (λ c, if decide (c = 39) then 34 else c)%N <$> lit s.

(** The text of an error response that has no [id]. *)
Definition error_text (errorCode : Z) : str :=
  json_lit "{'jsonrpc': '2.0', 'error': {'code': " ++ str_of_Z errorCode ++ lit "}}".

(** The error response that has no [id]. *)
Definition error_response (errorCode : Z) : JsonRpcResponse.t :=
  JsonRpcResponse.new (ascii_bytes (error_text errorCode)).

(** What the request's bytes parse to. *)
Definition parse_request `{Python} (request : JsonRpcRequest.t) : outcome pyval :=
  text ← utf8_decode (JsonRpcRequest.jrpcRequest request); json_loads text.

(** The [params] a handler is called with for a request object. *)
Definition params_of (items : list (str * pyval)) : pyval :=
  default PyNone (assoc (lit "params") items).

(** The block a submit request declares, decoded as the flag says. *)
Definition decode_block `{Core} (request : SubmitNewBlockRequest.t) : outcome Block :=
  if decide (SubmitNewBlockRequest.isRootBlock request ≠ 0)
  then b ← RootBlock_deserialize (SubmitNewBlockRequest.blockData request); Returns (ARootBlock b)
  else b ← MinorBlock_deserialize (SubmitNewBlockRequest.blockData request); Returns (AMinorBlock b).

(** The state engine's verdict on a decoded block, and the call that asks for it. *)
Definition engine_verdict `{Node} (b : Block) : option str :=
  match b with
  | ARootBlock r => appendRootBlock r
  | AMinorBlock m => appendMinorBlock m
  end.

Definition append_call `{Core} (b : Block) : call :=
  match b with
  | ARootBlock r => AppendRootBlock r
  | AMinorBlock m => AppendMinorBlock m
  end.

Fixpoint take_while {A} (p : A → bool) (l : list A) : list A :=
  match l with
  | [] => []
  | x :: l' => if p x then x :: take_while p l' else []
  end.

Section Windows.
Context `{Node}.

(** A header lies in the trailing window of [sec] seconds before [now]. *)
Definition in_window (now : Q) (sec : Z) (header : MinorBlockHeader.t) : bool :=
  Qle_bool (now - inject_Z sec) (inject_Z (MinorBlockHeader.createTime header)).

(** The headers of a shard from its tip back to genesis, one height at a time. *)
Definition chain_back (shardId : Z) : list MinorBlockHeader.t :=
  getMinorBlockTip shardId ::
  (getMinorBlockHeaderByHeight shardId <$>
     rev (range (MinorBlockHeader.height (getMinorBlockTip shardId)))).

(** The headers the walk counts: those met before the first one that is
    older than the window. *)
Definition window_headers (now : Q) (sec : Z) (shardId : Z) : list MinorBlockHeader.t :=
  take_while (in_window now sec) (chain_back shardId).

(** Every shard's chain has a tip at a height that is not negative, and the
    header looked up at a height is at that height. *)
Definition chains_well_formed : Prop :=
  ∀ shardId, 0 ≤ shardId < getShardSize →
    0 ≤ MinorBlockHeader.height (getMinorBlockTip shardId) ∧
    ∀ h, 0 ≤ h < MinorBlockHeader.height (getMinorBlockTip shardId) →
      MinorBlockHeader.height (getMinorBlockHeaderByHeight shardId h) = h.

(** The fuel covers the longest walk. *)
Definition fuel_covers (fuel : nat) : Prop :=
  ∀ shardId, 0 ≤ shardId < getShardSize →
    MinorBlockHeader.height (getMinorBlockTip shardId) < Z.of_nat fuel.
End Windows.


(** A JSON value that is neither a string nor a container. *)
Definition is_scalar (v : pyval) : bool :=
  match v with
  | PyNone | PyBool _ | PyInt _ | PyFloat _ _ => true
  | _ => false
  end.

(** The text of an error response that echoes [jrpcId]. *)
Definition error_text_with_id `{Python} (errorCode : Z) (jrpcId : pyval) : str :=
  json_lit "{'jsonrpc': '2.0', 'error': {'code': " ++ str_of_Z errorCode ++
  json_lit "}, 'id': " ++ json_dumps jrpcId ++ lit "}".

(** No header of the list is newer than one before it. *)
Fixpoint timestamps_descend (l : list MinorBlockHeader.t) : Prop :=
  match l with
  | [] => True
  | newer :: l' =>
      Forall (λ older, MinorBlockHeader.createTime older ≤ MinorBlockHeader.createTime newer) l' ∧
      timestamps_descend l'
  end.

(** [d.get(key)] on a parsed object. *)
Definition member (key : string) (d : pyval) : option pyval :=
  match d with
  | PyDict items => assoc (lit key) items
  | _ => None
  end.

(** The master's entry and the slaves' entries of a configuration. *)
Definition config_master (config : pyval) : option pyval := member "master" config.

Definition config_slaves (config : pyval) : list pyval :=
  match member "slaves" config with
  | Some (PyList slaves) => slaves
  | _ => []
  end.

(** ** Concrete collaborators for evaluating the handlers *)

(** A toy [quarkchain.core]: a root block is its bytes, a minor block is the
    list of its transactions, a transaction is its bytes. An empty buffer does
    not decode: as a root block it fails an assertion that has no message, as
    a minor block it is too short. *)
Definition toy_core : Core := {|
  RootBlock := bytes;
  MinorBlock := list bytes;
  Transaction := bytes;
  RootBlock_deserialize bs :=
    match bs with
    | [] => Raises (Exception "AssertionError" [])
    | _ => Returns bs
    end;
  RootBlock_serialize b := b;
  MinorBlock_deserialize bs :=
    match bs with
    | [] => raise "RuntimeError" "buffer is shorter than expected"
    | _ => Returns [bs]
    end;
  MinorBlock_serialize b := concat b;
  txList b := b
|}.

Definition no_header : MinorBlockHeader.t := MinorBlockHeader.new 0 0 0 [].

(** A toy node: [best] is what there is to mine, [verdict] is the engine's
    answer to every appended block, [chains] holds every shard's headers by
    height, and the clock always reads [now]. The engine's enqueue operation
    takes exactly one transaction, as the state-engine interface has it. *)
Definition toy_node (best : option bool * option (@Block toy_core)) (verdict : option str)
           (chains : list (list MinorBlockHeader.t)) (now : Q) : @Node toy_core := {|
  findBestBlockToMine := best;
  appendRootBlock _ := verdict;
  appendMinorBlock _ := verdict;
  addTransactionToQueue args :=
    match args with
    | [_] => Returns ()
    | _ => raise "TypeError" "addTransactionToQueue() missing 1 required positional argument"
    end;
  getShardSize := Z.of_nat (length chains);
  getRootBlockTip := RootBlockHeader.new 0 0;
  getMinorBlockTip shardId :=
    List.last (nth (Z.to_nat shardId) chains []) no_header;
  getMinorBlockHeaderByHeight shardId h :=
    nth (Z.to_nat h) (nth (Z.to_nat shardId) chains []) no_header;
  getMinorBlockByHash _ := [];
  time_time _ := now
|}.

(** The synthetic chain of the specification: one shard whose headers at
    heights 0, 1, 2 were created 400, 70 and 10 seconds before [now]. *)
Definition synthetic_chain (now : Z) : list (list MinorBlockHeader.t) :=
  [[ MinorBlockHeader.new (now - 400) 0 1 [];
     MinorBlockHeader.new (now - 70) 1 1 [];
     MinorBlockHeader.new (now - 10) 2 1 [] ]].

(** A toy standard library: it decodes ASCII bytes, parses the texts listed in
    [table] to the values given there and refuses every other text; it is not
    asked to print a float. *)
Definition toy_python (table : list (str * pyval)) : Python := {|
  utf8_decode bs :=
    if forallb (λ b, Z_of_byte b <? 128) bs
    then Returns ((λ b, Byte.to_N b) <$> bs)
    else raise "UnicodeDecodeError" "'utf-8' codec can't decode byte";
  json_loads text :=
    match assoc text table with
    | Some v => Returns v
    | None => raise "JSONDecodeError" "Expecting value"
    end;
  float_repr _ _ := [];
  float_repr_ascii _ _ := eq_refl
|}.

(** Three requests and what [json.loads] makes of them. *)
Definition text_getStats : str := json_lit "{'jsonrpc': '2.0', 'method': 'getStats'}".
Definition text_with_id : str := json_lit "{'jsonrpc': '2.0', 'id': 7, 'method': 'noSuchMethod'}".
Definition text_no_version : str := json_lit "{'method': 'getStats'}".

Definition toy_table : list (str * pyval) :=
  [ (text_getStats,
     PyDict [(lit "jsonrpc", PyStr (lit "2.0")); (lit "method", PyStr (lit "getStats"))]);
    (text_with_id,
     PyDict [(lit "jsonrpc", PyStr (lit "2.0")); (lit "id", PyInt 7);
             (lit "method", PyStr (lit "noSuchMethod"))]);
    (text_no_version,
     PyDict [(lit "method", PyStr (lit "getStats"))]) ].

Definition w0 : @world toy_core := World 0 [].

(** The request of the toy examples that carries [text]. *)
Definition toy_request (text : str) : JsonRpcRequest.t := JsonRpcRequest.new (ascii_bytes text).

(** The toy node whose only shard holds the synthetic chain, at time 1000. *)
Definition toy_chain_node : @Node toy_core :=
  toy_node (None, None) None (synthetic_chain 1000) 1000.

(** The toy node that has no shard. *)
Definition toy_empty_node : @Node toy_core := toy_node (None, None) None [] 1000.

(** The stats object of the toy chain node. *)
Definition toy_stats : pyval :=
  PyDict [ (lit "shardSize", PyInt 1); (lit "rootHeight", PyInt 0);
           (lit "rootDifficulty", PyInt 0); (lit "avgMinorHeight", PyInt 2);
           (lit "avgMinorDifficulty", PyInt 1); (lit "minorBlocksIn60s", PyInt 1);
           (lit "minorBlocksIn300s", PyInt 2); (lit "transactionsIn60s", PyInt 0);
           (lit "transactionsIn300s", PyInt 0) ].

(** A toy transaction class for the wire schema: a length-prefixed blob. *)
Definition toy_Transaction : Serializer := PreprendedSizeBytesSerializer 4.

#[global] Instance byte_eq_dec : EqDecision byte := Byte.byte_eq_dec.

(** A toy node like [toy_node] whose store hands out [blocks] by hash. *)
Definition toy_store_node (chains : list (list MinorBlockHeader.t))
           (blocks : list (bytes * list bytes)) (now : Q) : @Node toy_core :=
  @Build_Node toy_core
    (None, None)
    (λ _, None)
    (λ _, None)
    (λ args,
       match args with
       | [_] => Returns ()
       | _ => raise "TypeError" "addTransactionToQueue() missing 1 required positional argument"
       end)
    (Z.of_nat (length chains))
    (RootBlockHeader.new 0 0)
    (λ shardId, List.last (nth (Z.to_nat shardId) chains []) no_header)
    (λ shardId h, nth (Z.to_nat h) (nth (Z.to_nat shardId) chains []) no_header)
    (λ hash, default [] (assoc hash blocks))
    (λ _, now).

(** One shard, three blocks created 400, 70 and 10 seconds before time 1000,
    holding 1, 2 and 3 transactions. *)
Definition toy_busy_chain : list (list MinorBlockHeader.t) :=
  [[ MinorBlockHeader.new 600 0 1 [x00];
     MinorBlockHeader.new 930 1 1 [x01];
     MinorBlockHeader.new 990 2 1 [x02] ]].

(** The blocks of the store, by hash; a block is the list of its transactions. *)
Definition toy_busy_blocks : list (bytes * list bytes) :=
  [ ([x00], [[x0a]]); ([x01], [[x0b]; [x0c]]); ([x02], [[x0d]; [x0e]; [x0f]]) ].

Definition toy_busy_node : @Node toy_core := toy_store_node toy_busy_chain toy_busy_blocks 1000.

(** The toy node whose enqueue operation accepts a call with no argument. *)
Definition toy_lenient_node : @Node toy_core :=
  @Build_Node toy_core (None, None) (λ _, None) (λ _, None) (λ _, Returns ())
    0 (RootBlockHeader.new 0 0) (λ _, no_header) (λ _ _, no_header) (λ _, []) (λ _, 1000%Q).

(** More requests and what [json.loads] makes of them. *)
Definition text_number : str := lit "5".
Definition text_array : str := json_lit "['jsonrpc', '2.0']".
Definition text_string : str := json_lit "'ping'".
Definition text_method_number : str := json_lit "{'jsonrpc': '2.0', 'method': 1}".
Definition text_method_array : str := json_lit "{'jsonrpc': '2.0', 'method': ['getStats']}".
Definition text_getStats_params : str :=
  json_lit "{'jsonrpc': '2.0', 'id': 7, 'method': 'getStats', 'params': [1]}".

Definition toy_table_more : list (str * pyval) :=
  toy_table ++
  [ (text_number, PyInt 5);
    (text_array, PyList [PyStr (lit "jsonrpc"); PyStr (lit "2.0")]);
    (text_string, PyStr (lit "ping"));
    (text_method_number,
     PyDict [(lit "jsonrpc", PyStr (lit "2.0")); (lit "method", PyInt 1)]);
    (text_method_array,
     PyDict [(lit "jsonrpc", PyStr (lit "2.0"));
             (lit "method", PyList [PyStr (lit "getStats")])]);
    (text_getStats_params,
     PyDict [(lit "jsonrpc", PyStr (lit "2.0")); (lit "id", PyInt 7);
             (lit "method", PyStr (lit "getStats")); (lit "params", PyList [PyInt 1])]) ].

(** A test for powers of two: [v & (v - 1) == 0]. *)
Definition no_bit_below_the_top (v : Z) : bool := bool_decide (Z.land v (v - 1) = 0).

(** Unfolds the plumbing of [M], leaving the calls of the handler. *)
Ltac run_M :=
  cbv [mbind M_bind mret M_ret lift log_call try_except
       qc_appendRootBlock qc_appendMinorBlock qc_addTransactionToQueue time_now negb].

(** * Properties *)

(** ** Wire schema *)

Lemma Z_of_byte_range b : 0 ≤ Z_of_byte b < 256.
Proof. unfold Z_of_byte. pose proof (Byte.to_N_bounded b). lia. Qed.

Lemma be_decode_snoc bs b : be_decode (bs ++ [b]) = be_decode bs * 256 + Z_of_byte b.
Proof. unfold be_decode. by rewrite fold_left_app. Qed.

Lemma be_decode_bound bs : 0 ≤ be_decode bs < 256 ^ Z.of_nat (length bs).
Proof.
  induction bs as [|b bs IH] using rev_ind; [by cbn|].
  rewrite be_decode_snoc, length_app, Nat2Z.inj_add, Z.pow_add_r by lia.
  cbn [length]. change (256 ^ Z.of_nat 1) with 256.
  pose proof (Z_of_byte_range b). nia.
Qed.

Lemma byte_of_Z_of_byte b : byte_of_Z (Z_of_byte b) = b.
Proof. unfold byte_of_Z, Z_of_byte. by rewrite N2Z.id, Byte.of_to_N. Qed.

Lemma be_encode_decode bs : be_encode (length bs) (be_decode bs) = bs.
Proof.
  induction bs as [|b bs IH] using rev_ind; [done|].
  rewrite length_app, Nat.add_1_r, be_decode_snoc. cbn [be_encode].
  pose proof (Z_of_byte_range b).
  replace ((be_decode bs * 256 + Z_of_byte b) / 256) with (be_decode bs)
    by (apply Z.div_unique with (Z_of_byte b); lia).
  replace ((be_decode bs * 256 + Z_of_byte b) mod 256) with (Z_of_byte b)
    by (apply Z.mod_unique with (be_decode bs); lia).
  by rewrite IH, byte_of_Z_of_byte.
Qed.

Lemma UintSerializer_deserialize size bs v rest :
  deserialize (UintSerializer size) bs = Returns (v, rest) →
  ∃ z, v = WInt z ∧ 0 ≤ z < 256 ^ Z.of_nat size ∧ bs = be_encode size z ++ rest.
Proof.
  cbn -[take drop]. destruct (decide (size ≤ length bs)%nat) as [Hlen|]; [|done].
  intros [= <- <-]. exists (be_decode (take size bs)).
  pose proof (be_decode_bound (take size bs)) as Hb.
  pose proof (be_encode_decode (take size bs)) as He.
  rewrite length_take, Nat.min_l in Hb, He by done.
  by rewrite He, take_drop.
Qed.

Lemma UintSerializer_serialize size z :
  0 ≤ z < 256 ^ Z.of_nat size →
  serialize (UintSerializer size) (WInt z) = Returns (be_encode size z).
Proof. intros Hz. cbn. rewrite !decide_False by lia. done. Qed.

Lemma UintSerializer_round_trips size : round_trips (UintSerializer size).
Proof.
  intros bs v rest (z & -> & Hz & ->)%UintSerializer_deserialize.
  eexists. split; [done|]. by apply UintSerializer_serialize.
Qed.

Lemma PreprendedSizeBytesSerializer_round_trips sizeBytes :
  round_trips (PreprendedSizeBytesSerializer sizeBytes).
Proof.
  intros bs v rest. cbn -[UintSerializer take drop].
  destruct (deserialize (UintSerializer sizeBytes) bs) as [[n rest1]| |] eqn:Hn; [|done..].
  apply UintSerializer_deserialize in Hn as (z & -> & Hz & ->).
  cbn -[UintSerializer take drop].
  destruct (decide (Z.to_nat z ≤ length rest1)%nat) as [Hlen|]; [|done].
  intros [= <- <-]. exists (be_encode sizeBytes z ++ take (Z.to_nat z) rest1).
  split; [by rewrite <- app_assoc, take_drop|].
  cbn -[take]. rewrite length_take, Nat.min_l, Z2Nat.id, !decide_False by lia.
  done.
Qed.

Lemma deserialize_items_round_trips ser count :
  round_trips ser →
  ∀ bs vs rest, deserialize_items ser count bs = Returns (vs, rest) →
    length vs = count ∧
    ∃ consumed, bs = consumed ++ rest ∧ serialize_items ser vs = Returns consumed.
Proof.
  intros Hser. induction count as [|count IH]; intros bs vs rest; cbn.
  - intros [= <- <-]. split; [done|]. by exists [].
  - destruct (deserialize ser bs) as [[v rest1]| |] eqn:Hv; [|done..]. cbn.
    destruct (deserialize_items ser count rest1) as [[vs' rest2]| |] eqn:Hvs; [|done..]. cbn.
    intros [= <- <-].
    apply Hser in Hv as (c1 & -> & Hs1). apply IH in Hvs as (Hlen & c2 & -> & Hs2).
    split; [by rewrite <- Hlen|].
    exists (c1 ++ c2). split; [by rewrite app_assoc|].
    cbn [serialize_items]. by rewrite Hs1, Hs2.
Qed.

Lemma PreprendedSizeListSerializer_round_trips sizeBytes ser :
  round_trips ser → round_trips (PreprendedSizeListSerializer sizeBytes ser).
Proof.
  intros Hser bs v rest. cbn -[UintSerializer].
  destruct (deserialize (UintSerializer sizeBytes) bs) as [[n rest1]| |] eqn:Hn; [|done..].
  apply UintSerializer_deserialize in Hn as (z & -> & Hz & ->).
  cbn -[UintSerializer].
  destruct (deserialize_items ser (Z.to_nat z) rest1) as [[vs rest2]| |] eqn:Hvs; [|done..].
  cbn. intros [= <- <-].
  apply (deserialize_items_round_trips _ _ Hser) in Hvs as (Hlen & c & -> & Hs).
  exists (be_encode sizeBytes z ++ c). split; [by rewrite app_assoc|].
  cbn. rewrite Hlen, Z2Nat.id, !decide_False by lia.
  cbn. by rewrite Hs.
Qed.

Lemma assoc_set_eq {A} (name : string) (v : A) attrs :
  assoc name (assoc_set name v attrs) = Some v.
Proof.
  induction attrs as [|[k x] attrs IH]; cbn.
  - by rewrite decide_True.
  - destruct (decide (k = name)) as [->|Hk]; cbn; [by rewrite decide_True|].
    by rewrite decide_False.
Qed.

Lemma assoc_set_ne {A} (name other : string) (v : A) attrs :
  name ≠ other → assoc other (assoc_set name v attrs) = assoc other attrs.
Proof.
  intros Hne. induction attrs as [|[k x] attrs IH]; cbn.
  - by rewrite decide_False.
  - destruct (decide (k = name)) as [->|Hk]; cbn.
    + by rewrite !decide_False.
    + destruct (decide (k = other)); [done|]. exact IH.
Qed.

Lemma fields_round_trip entries names :
  fields_ok entries names →
  ∀ kwargs bs obj rest,
    deserialize_fields entries kwargs bs = Returns (obj, rest) →
    ∃ attrs consumed,
      obj = WObj attrs ∧ bs = consumed ++ rest ∧
      (∀ other, other ∉ names → assoc other attrs = assoc other kwargs) ∧
      (∀ attrs', (∀ name, name ∈ names → assoc name attrs' = assoc name attrs) →
         serialize_fields entries (WObj attrs') = Returns consumed).
Proof.
  induction 1 as [|name ser entries names Hser Hfresh Hok IH]; intros kwargs bs obj rest.
  - cbn. intros [= <- <-]. exists kwargs, []. done.
  - cbn [deserialize_fields unpack2 py_iter as_serializer as_name mbind outcome_bind].
    destruct (deserialize ser bs) as [[v rest1]| |] eqn:Hv; [|done..]. cbn.
    intros Hrest. apply IH in Hrest as (attrs & c2 & -> & -> & Hother & Hser2).
    apply Hser in Hv as (c1 & -> & Hs1).
    exists attrs, (c1 ++ c2). split; [done|]. split; [by rewrite app_assoc|]. split.
    + intros other Hnotin. rewrite Hother by set_solver.
      apply assoc_set_ne. set_solver.
    + intros attrs' Hsame.
      cbn [serialize_fields unpack2 py_iter as_serializer as_name mbind outcome_bind getattr].
      rewrite (Hsame name) by set_solver.
      rewrite (Hother name Hfresh), assoc_set_eq. cbn. rewrite Hs1. cbn.
      rewrite Hser2; [done|]. intros n Hn. apply Hsame. set_solver.
Qed.

Lemma class_serializer_round_trips entries names :
  fields_ok entries names → round_trips (class_serializer (ITuple entries)).
Proof.
  intros Hok bs obj rest Hdes. cbn in Hdes.
  apply (fields_round_trip _ _ Hok) in Hdes as (attrs & consumed & -> & -> & _ & Hser).
  exists consumed. split; [done|]. cbn. by apply Hser.
Qed.

Section WireRoundTrip.
Variables Address Transaction : Serializer.
Hypothesis Address_round_trips : round_trips Address.
Hypothesis Transaction_round_trips : round_trips Transaction.

Lemma NewTransaction_round_trips :
round_trips (class_serializer (NewTransaction_FIELDS Transaction)).
Proof.
eapply class_serializer_round_trips. unfold uint32.
repeat first [apply fields_ok_nil | eapply fields_ok_cons].
all: first [ by auto using UintSerializer_round_trips | compute_done ].
Qed.

(** Under the schema of section 4.1, the seven message classes whose [FIELDS]
  is a tuple of pairs round-trip: what [deserialize] consumed is what
  [serialize] gives back. *)
Lemma declared_messages_round_trip :
round_trips (class_serializer (GetBlockTemplateRequest_FIELDS Address)) ∧
round_trips (class_serializer GetBlockTemplateResponse_FIELDS) ∧
round_trips (class_serializer SubmitNewBlockRequest_FIELDS) ∧
round_trips (class_serializer SubmitNewBlockResponse_FIELDS) ∧
round_trips (class_serializer (AddNewTransactionListRequest_FIELDS Transaction)) ∧
round_trips (class_serializer JsonRpcRequest_FIELDS) ∧
round_trips (class_serializer JsonRpcResponse_FIELDS).
Proof.
pose proof NewTransaction_round_trips.
repeat split; eapply class_serializer_round_trips; unfold uint8, uint32;
  repeat first [apply fields_ok_nil | eapply fields_ok_cons].
all: first
       [ by auto using UintSerializer_round_trips, PreprendedSizeBytesSerializer_round_trips,
              PreprendedSizeListSerializer_round_trips
       | compute_done ].
Qed.
End WireRoundTrip.

(** With the comma, [(("numTxAdded", uint32),)], the eighth class would
    round-trip as well. *)
Lemma numTxAdded_one_tuple_round_trips :
  round_trips (class_serializer (ITuple [ITuple [IStr "numTxAdded"; ISer uint32]])).
Proof.
  eapply class_serializer_round_trips.
  eapply fields_ok_cons; [apply UintSerializer_round_trips | | apply fields_ok_nil].
  compute_done.
Qed.

(** C8, at [AddNewTransactionListResponse]: the class's [FIELDS] is the pair
    [("numTxAdded", uint32)] itself, so walking it as (name, serializer) pairs
    fails at its first element, the ten-character string: no instance
    serializes and no byte string deserializes, and the round trip
    [encode(decode(bytes)) == bytes] is never reached for this class. *)
Theorem AddNewTransactionListResponse_cannot_be_encoded :
  (∀ self, Serializable_serialize AddNewTransactionListResponse_FIELDS self
           = raise "ValueError" "too many values to unpack (expected 2)") ∧
  (∀ bs, Serializable_deserialize AddNewTransactionListResponse_FIELDS bs
           = raise "ValueError" "too many values to unpack (expected 2)").
Proof. split; intros; reflexivity. Qed.

(** C9, as the code has it: the [shardId] field of [NewTransaction] is an
    unsigned 32-bit integer. Every envelope that decodes carries a shard id
    in [0, 2^32), and an envelope with a negative shard id has no encoding:
    serializing it raises. *)
Theorem NewTransaction_shardId_is_unsigned (Transaction : Serializer) :
  (∀ bs self rest,
     Serializable_deserialize (NewTransaction_FIELDS Transaction) bs = Returns (self, rest) →
     ∃ shardId, getattr self "shardId" = Returns (WInt shardId) ∧ 0 ≤ shardId < 2 ^ 32) ∧
  (∀ attrs shardId,
     assoc "shardId" attrs = Some (WInt shardId) → shardId < 0 →
     Serializable_serialize (NewTransaction_FIELDS Transaction) (WObj attrs)
     = raise "OverflowError" "can't convert negative int to unsigned").
Proof.
  split.
  - intros bs self rest. unfold Serializable_deserialize, NewTransaction_FIELDS.
    cbn -[take drop be_decode].
    destruct (decide (4 ≤ length bs)%nat) as [Hlen|]; [|done].
    cbn -[take drop be_decode].
    destruct (deserialize Transaction (drop 4 bs)) as [[v rest']| |];
      cbn -[take drop be_decode]; [|done..].
    intros [= <- <-]. eexists; split; [reflexivity|].
    pose proof (be_decode_bound (take 4 bs)) as Hb.
    rewrite length_take, Nat.min_l in Hb by done. exact Hb.
  - intros attrs shardId Hshard Hneg.
    unfold Serializable_serialize, NewTransaction_FIELDS. cbn.
    rewrite Hshard. cbn. by destruct (decide (shardId < 0)).
Qed.

(** C9 as stated fails: shard id -1 has no encoding, and the four bytes that
    would be -1 in a signed field decode to 4294967295. *)
Lemma negative_shardId_is_not_representable :
  Serializable_serialize (NewTransaction_FIELDS toy_Transaction)
    (WObj [("shardId", WInt (-1)); ("transaction", WBytes [])])
  = raise "OverflowError" "can't convert negative int to unsigned"
  ∧
  Serializable_deserialize (NewTransaction_FIELDS toy_Transaction)
    [xff; xff; xff; xff; x00; x00; x00; x00]
  = Returns (WObj [("shardId", WInt 4294967295); ("transaction", WBytes [])], []).
Proof. split; vm_compute; reflexivity. Qed.

Lemma NewTransaction_shardId_is_unsigned_witness :
  (∃ shardId,
     getattr (WObj [("shardId", WInt 4294967295); ("transaction", WBytes [])]) "shardId"
     = Returns (WInt shardId) ∧ 0 ≤ shardId < 2 ^ 32) ∧
  Serializable_serialize (NewTransaction_FIELDS toy_Transaction)
    (WObj [("shardId", WInt (-1)); ("transaction", WBytes [])])
  = raise "OverflowError" "can't convert negative int to unsigned".
Proof.
  split.
  - apply (proj1 (NewTransaction_shardId_is_unsigned toy_Transaction)
             [xff; xff; xff; xff; x00; x00; x00; x00] _ []).
    vm_compute. reflexivity.
  - apply (proj2 (NewTransaction_shardId_is_unsigned toy_Transaction)
             [("shardId", WInt (-1)); ("transaction", WBytes [])] (-1)).
    + reflexivity.
    + lia.
Defined.

(** ** Command handlers *)

(** C7: the get-block-template handler returns a response whatever the state
    engine offers: nothing to mine gives (0, empty bytes), a root block gives
    (1, the encoded block), a minor block gives (0, the encoded block). *)
Theorem handleGetBlockTemplateRequest_maps `{Node}
        (request : GetBlockTemplateRequest.t) (w : world) :
  (∀ block, findBestBlockToMine = (None, block) →
     handleGetBlockTemplateRequest request w
     = (Returns (GetBlockTemplateResponse.new 0 []), w)) ∧
  (∀ b, findBestBlockToMine = (Some true, Some (ARootBlock b)) →
     handleGetBlockTemplateRequest request w
     = (Returns (GetBlockTemplateResponse.new 1 (RootBlock_serialize b)), w)) ∧
  (∀ b, findBestBlockToMine = (Some false, Some (AMinorBlock b)) →
     handleGetBlockTemplateRequest request w
     = (Returns (GetBlockTemplateResponse.new 0 (MinorBlock_serialize b)), w)).
Proof.
  unfold handleGetBlockTemplateRequest.
  split; [|split]; intros ? Hbest; rewrite Hbest; reflexivity.
Qed.

Lemma handleGetBlockTemplateRequest_maps_witness :
  @handleGetBlockTemplateRequest _ (toy_node (None, None) None [] 0)
     (GetBlockTemplateRequest.new [] 1 []) w0
  = (Returns (GetBlockTemplateResponse.new 0 []), w0) ∧
  @handleGetBlockTemplateRequest _
     (toy_node (Some true, Some (@ARootBlock toy_core [x2a])) None [] 0)
     (GetBlockTemplateRequest.new [] 1 []) w0
  = (Returns (GetBlockTemplateResponse.new 1 [x2a]), w0) ∧
  @handleGetBlockTemplateRequest _
     (toy_node (Some false, Some (@AMinorBlock toy_core [[x2a]; [x2b]])) None [] 0)
     (GetBlockTemplateRequest.new [] 1 []) w0
  = (Returns (GetBlockTemplateResponse.new 0 [x2a; x2b]), w0).
Proof.
  split; [|split].
  - exact (proj1 (@handleGetBlockTemplateRequest_maps _
             (toy_node (None, None) None [] 0) _ w0) None eq_refl).
  - exact (proj1 (proj2 (@handleGetBlockTemplateRequest_maps _
             (toy_node (Some true, Some (@ARootBlock toy_core [x2a])) None [] 0) _ w0))
             _ eq_refl).
  - exact (proj2 (proj2 (@handleGetBlockTemplateRequest_maps _
             (toy_node (Some false, Some (@AMinorBlock toy_core [[x2a]; [x2b]])) None [] 0)
             _ w0)) _ eq_refl).
Defined.


Lemma ascii_bytes_codes s : is_ascii s = true → Byte.to_N <$> ascii_bytes s = s.
Proof.
  unfold is_ascii, ascii_bytes. induction s as [|c s IH]; [done|].
  cbn. intros [Hc Hs]%andb_prop. rewrite IH by done. f_equal.
  apply N.ltb_lt in Hc. unfold byte_of_Z. rewrite N2Z.id.
  destruct (Byte.of_N c) as [b|] eqn:Hb.
  - by apply Byte.to_of_N.
  - apply Byte.of_N_None_iff in Hb. lia.
Qed.






Lemma for_each_cons `{Core} {A} (x : A) (l : list A) (body : A → M ()) (w : world) :
  for_each (x :: l) body w =
  match body x w with
  | (Returns _, w') => for_each l body w'
  | (Raises e, w') => (Raises e, w')
  | (Diverges, w') => (Diverges, w')
  end.
Proof. reflexivity. Qed.

Lemma qc_addTransactionToQueue_run `{Node} (args : list Transaction) (w : world) :
  qc_addTransactionToQueue args w
  = (addTransactionToQueue args, World (ticks w) (calls w ++ [AddTransactionToQueue args])).
Proof. reflexivity. Qed.

Lemma for_each_enqueue `{Node} (l : list NewTransaction.t) (w : world) :
  ∃ k o,
    for_each l (λ newTx, qc_addTransactionToQueue []) w
    = (o, World (ticks w) (calls w ++ replicate k (AddTransactionToQueue []))) ∧
    (k ≤ length l)%nat ∧
    (o = Returns () → k = length l).
Proof.
  revert w. induction l as [|newTx l IH]; intros w.
  - exists 0%nat, (Returns ()). cbn. rewrite app_nil_r. by destruct w.
  - rewrite for_each_cons, qc_addTransactionToQueue_run.
    destruct (addTransactionToQueue []) as [[]|e|] eqn:Hcall.
    + destruct (IH (World (ticks w) (calls w ++ [AddTransactionToQueue []])))
        as (k & o & Hrun & Hk & Hall).
      exists (S k), o. cbn [ticks calls] in Hrun.
      rewrite Hrun, <- app_assoc. cbn. split; [done|]. split; [lia|].
      intros Ho. by rewrite Hall.
    + exists 1%nat, (Raises e). cbn. split; [done|]. split; [lia|done].
    + exists 1%nat, Diverges. cbn. split; [done|]. split; [lia|done].
Qed.

(** C1, what the handler does: it calls the engine's enqueue operation at most
    once per envelope, in order, and every one of these calls is made with no
    argument, so no envelope's transaction reaches the engine. When the
    handler returns, it made one call per envelope and numTxAdded is the
    length of the list. *)
Theorem handleAddNewTransactionListRequest_calls `{Node}
        (request : AddNewTransactionListRequest.t) (w : world) :
  ∃ k o w',
    handleAddNewTransactionListRequest request w = (o, w') ∧
    ticks w' = ticks w ∧
    calls w' = calls w ++ replicate k (AddTransactionToQueue []) ∧
    (k ≤ length (AddNewTransactionListRequest.txList request))%nat ∧
    (∀ response, o = Returns response →
       k = length (AddNewTransactionListRequest.txList request) ∧
       AddNewTransactionListResponse.numTxAdded response
       = Z.of_nat (length (AddNewTransactionListRequest.txList request))).
Proof.
  unfold handleAddNewTransactionListRequest.
  destruct (for_each_enqueue (AddNewTransactionListRequest.txList request) w)
    as (k & o & Hrun & Hk & Hall).
  unfold mbind, M_bind. rewrite Hrun.
  destruct o as [[]|e|]; eexists k, _, _; (split; [reflexivity|]);
    cbn [ticks calls]; (split; [done|]); (split; [done|]); (split; [done|]).
  - intros response [= <-]. split; [by apply Hall | done].
  - intros response Hresponse. discriminate Hresponse.
  - intros response Hresponse. discriminate Hresponse.
Qed.

(** ** JSON texts *)

Lemma is_ascii_app s t : is_ascii (s ++ t) = is_ascii s && is_ascii t.
Proof. apply forallb_app. Qed.

Lemma is_ascii_concat (parts : list str) :
  Forall (λ p, is_ascii p = true) parts → is_ascii (concat parts) = true.
Proof.
  induction 1 as [|p parts Hp _ IH]; [done|].
  cbn. by rewrite is_ascii_app, Hp, IH.
Qed.

Lemma is_ascii_join sep (parts : list str) :
  is_ascii sep = true → Forall (λ p, is_ascii p = true) parts → is_ascii (join sep parts) = true.
Proof.
  intros Hsep. induction 1 as [|p parts Hp Hparts IH]; [done|].
  cbn [join]. destruct parts as [|q parts]; [done|].
  by rewrite !is_ascii_app, Hp, Hsep, IH.
Qed.

Lemma string_of_uint_ascii d : is_ascii (lit (NilEmpty.string_of_uint d)) = true.
Proof. induction d; cbn; auto. Qed.

Lemma str_of_Z_ascii z : is_ascii (str_of_Z z) = true.
Proof.
  unfold str_of_Z, NilZero.string_of_int.
  destruct (Z.to_int z) as [d|d]; unfold NilZero.string_of_uint.
  - destruct d; try apply string_of_uint_ascii. done.
  - change (is_ascii (45%N :: lit match d with Decimal.Nil => "0" | _ => NilEmpty.string_of_uint d end) = true).
    cbn. destruct d; try apply string_of_uint_ascii. done.
Qed.

Lemma hex_digit_ascii d : (d < 16)%N → (hex_digit d <? 128)%N = true.
Proof. intros. unfold hex_digit. apply N.ltb_lt. destruct (d <? 10)%N; lia. Qed.

Lemma hex4_ascii n : is_ascii (hex4 n) = true.
Proof.
  unfold hex4, is_ascii. cbn [forallb].
  rewrite !hex_digit_ascii; [done|apply N.mod_lt; lia..].
Qed.

Lemma json_escape_char_ascii c : is_ascii (json_escape_char c) = true.
Proof.
  unfold json_escape_char.
  repeat (case_decide; [done|]).
  destruct ((32 <=? c)%N && (c <=? 126)%N) eqn:Hprint.
  - apply andb_prop in Hprint as [_ Hle%N.leb_le]. cbn. rewrite andb_true_r. apply N.ltb_lt. lia.
  - destruct (c <? 65536)%N; rewrite ?is_ascii_app, ?hex4_ascii; done.
Qed.

Lemma json_string_ascii s : is_ascii (json_string s) = true.
Proof.
  unfold json_string. rewrite !is_ascii_app, is_ascii_concat; [done|].
  apply Forall_fmap, Forall_forall. intros c _. apply json_escape_char_ascii.
Qed.

Lemma pyval_nested_ind (P : pyval → Prop) :
  P PyNone → (∀ b, P (PyBool b)) → (∀ z, P (PyInt z)) → (∀ num den, P (PyFloat num den)) →
  (∀ s, P (PyStr s)) →
  (∀ l, Forall P l → P (PyList l)) →
  (∀ items, Forall (λ kv, P kv.2) items → P (PyDict items)) →
  ∀ v, P v.
Proof.
  intros HNone HBool HInt HFloat HStr HList HDict.
  fix IH 1. intros [ | b | z | num den | s | l | items ].
  - exact HNone.
  - apply HBool.
  - apply HInt.
  - apply HFloat.
  - apply HStr.
  - apply HList. induction l as [|x l IHl]; constructor; [apply IH | exact IHl].
  - apply HDict. induction items as [|[k x] items IHitems]; constructor; [apply IH | exact IHitems].
Qed.

Lemma json_dumps_ascii `{Python} v : is_ascii (json_dumps v) = true.
Proof.
  induction v as [ | [] | z | num den | s | l IH | items IH ] using pyval_nested_ind; try done.
  - apply str_of_Z_ascii.
  - apply float_repr_ascii.
  - apply json_string_ascii.
  - cbn [json_dumps]. rewrite !is_ascii_app, is_ascii_join; [done..|].
    induction IH; constructor; auto.
  - cbn [json_dumps]. rewrite !is_ascii_app, is_ascii_join; [done..|].
    induction IH as [|[k x] items Hx _ IHitems]; constructor; [|exact IHitems].
    cbn [snd] in Hx. cbn beta iota. unfold is_ascii in Hx |- *. rewrite !forallb_app. fold (is_ascii (json_string k)). rewrite json_string_ascii, Hx. done.
Qed.

Lemma utf8_encode_ascii s : is_ascii s = true → utf8_encode s = Returns (ascii_bytes s).
Proof.
  induction s as [|c s IH]; [done|].
  cbn. intros [Hc Hs]%andb_prop. unfold utf8_encode_char. rewrite Hc, (IH Hs). done.
Qed.

Lemma encode_json_dumps `{Python} v :
  utf8_encode (json_dumps v) = Returns (ascii_bytes (json_dumps v)).
Proof. apply utf8_encode_ascii, json_dumps_ascii. Qed.

Lemma json_dumps_error `{Python} errorCode :
  json_dumps (jrpcError_response errorCode PyNone) = error_text errorCode.
Proof.
  unfold error_text, jrpcError_response. cbn [json_dumps map join].
  generalize (str_of_Z errorCode) as code. intros code.
  rewrite <- !app_assoc. vm_compute. reflexivity.
Qed.

Lemma jrpcError_no_id `{Python} errorCode :
  jrpcError errorCode PyNone = Returns (JsonRpcResponse.new (ascii_bytes (error_text errorCode))).
Proof. unfold jrpcError. by rewrite encode_json_dumps, json_dumps_error. Qed.

(** ** JSON-RPC dispatch *)

Lemma py_contains_Some items key v :
  assoc key items = Some v → py_contains (PyDict items) key = Returns true.
Proof. intros Hk. cbn. by rewrite Hk. Qed.

Lemma py_contains_None items key :
  assoc key items = None → py_contains (PyDict items) key = Returns false.
Proof. intros Hk. cbn. by rewrite Hk. Qed.

Lemma py_getitem_Some items key v :
  assoc key items = Some v → py_getitem (PyDict items) key = Returns v.
Proof. intros Hk. cbn. by rewrite Hk. Qed.

Lemma py_eq_str_true v s : py_eq_str v s = true ↔ v = PyStr s.
Proof.
  destruct v; cbn; try (split; [discriminate | congruence]).
  rewrite bool_decide_eq_true. split; congruence.
Qed.

Lemma py_eq_str_refl s : py_eq_str (PyStr s) s = true.
Proof. by apply py_eq_str_true. Qed.

Lemma py_in_table_str {A} (table : gmap str A) name :
  py_in_table (PyStr name) table = Returns (if table !! name is Some _ then true else false).
Proof. cbn. by destruct (table !! name). Qed.

Section Dispatch.
Context `{Node} `{Python}.

(** What the handler does with a request object that names a method. *)
Lemma handleJsonRpcRequest_method fuel request w items name :
  parse_request request = Returns (PyDict items) →
  assoc (lit "jsonrpc") items = Some (PyStr (lit "2.0")) →
  assoc (lit "method") items = Some (PyStr name) →
  handleJsonRpcRequest fuel request w =
  match JRPC_MAP fuel !! name with
  | None => (Returns (error_response (-32601)), w)
  | Some handler =>
      match handler (params_of items) w with
      | (Returns v, w') => (Returns (JsonRpcResponse.new (ascii_bytes (json_dumps v))), w')
      | (Raises e, w') => (Returns (error_response (-32603)), w')
      | (Diverges, w') => (Diverges, w')
      end
  end.
Proof.
  intros Hparse Hversion Hmethod. unfold handleJsonRpcRequest.
  change (text ← utf8_decode (JsonRpcRequest.jrpcRequest request); json_loads text)
    with (parse_request request).
  rewrite Hparse.
  rewrite (py_contains_Some _ _ _ Hversion), (py_getitem_Some _ _ _ Hversion).
  rewrite (py_contains_Some _ _ _ Hmethod), (py_getitem_Some _ _ _ Hmethod).
  run_M. rewrite py_eq_str_refl, py_in_table_str.
  unfold py_table_getitem.
  destruct (JRPC_MAP fuel !! name) as [handler|]; [|by rewrite jrpcError_no_id].
  unfold py_contains, py_getitem, params_of.
  destruct (assoc (lit "params") items) as [params|];
    cbn -[lit json_dumps utf8_encode jrpcError].
  - destruct (handler params w) as [[v|e|] w'];
      rewrite ?encode_json_dumps, ?jrpcError_no_id; reflexivity.
  - destruct (handler PyNone w) as [[v|e|] w'];
      rewrite ?encode_json_dumps, ?jrpcError_no_id; reflexivity.
Qed.

Lemma handleJsonRpcRequest_unparsed fuel request w e :
  parse_request request = Raises e →
  handleJsonRpcRequest fuel request w = (Returns (error_response (-32700)), w).
Proof.
  intros Hparse. unfold handleJsonRpcRequest.
  change (text ← utf8_decode (JsonRpcRequest.jrpcRequest request); json_loads text)
    with (parse_request request).
  rewrite Hparse. run_M. by rewrite jrpcError_no_id.
Qed.

Lemma handleJsonRpcRequest_bad_version fuel request w items :
  parse_request request = Returns (PyDict items) →
  assoc (lit "jsonrpc") items ≠ Some (PyStr (lit "2.0")) →
  handleJsonRpcRequest fuel request w = (Returns (error_response (-32600)), w).
Proof.
  intros Hparse Hversion. unfold handleJsonRpcRequest.
  change (text ← utf8_decode (JsonRpcRequest.jrpcRequest request); json_loads text)
    with (parse_request request).
  rewrite Hparse.
  destruct (assoc (lit "jsonrpc") items) as [v|] eqn:Hjsonrpc.
  - rewrite (py_contains_Some _ _ _ Hjsonrpc), (py_getitem_Some _ _ _ Hjsonrpc). run_M.
    destruct (py_eq_str v (lit "2.0")) eqn:Hv.
    + apply py_eq_str_true in Hv. congruence.
    + by rewrite jrpcError_no_id.
  - rewrite (py_contains_None _ _ Hjsonrpc). run_M. by rewrite jrpcError_no_id.
Qed.

Lemma handleJsonRpcRequest_no_method fuel request w items :
  parse_request request = Returns (PyDict items) →
  assoc (lit "jsonrpc") items = Some (PyStr (lit "2.0")) →
  assoc (lit "method") items = None →
  handleJsonRpcRequest fuel request w = (Returns (error_response (-32600)), w).
Proof.
  intros Hparse Hversion Hmethod. unfold handleJsonRpcRequest.
  change (text ← utf8_decode (JsonRpcRequest.jrpcRequest request); json_loads text)
    with (parse_request request).
  rewrite Hparse.
  rewrite (py_contains_Some _ _ _ Hversion), (py_getitem_Some _ _ _ Hversion).
  rewrite (py_contains_None _ _ Hmethod).
  run_M. rewrite py_eq_str_refl. by rewrite jrpcError_no_id.
Qed.

Lemma handleJsonRpcRequest_parsed fuel request w :
handleJsonRpcRequest fuel request w =
match parse_request request with
| Raises e => (Returns (error_response (-32700)), w)
| Diverges => (Diverges, w)
| Returns jrpcRequest =>
    (has_jsonrpc ← lift (py_contains jrpcRequest (lit "jsonrpc"));
     bad_version ←
       (if negb has_jsonrpc then mret true
        else v ← lift (py_getitem jrpcRequest (lit "jsonrpc"));
             mret (negb (py_eq_str v (lit "2.0"))));
     if (bad_version : bool) then mret (error_response (-32600)) else
     has_method ← lift (py_contains jrpcRequest (lit "method"));
     if negb has_method then mret (error_response (-32600)) else
     method ← lift (py_getitem jrpcRequest (lit "method"));
     known ← lift (py_in_table method (JRPC_MAP fuel));
     if negb known then mret (error_response (-32601)) else
     has_params ← lift (py_contains jrpcRequest (lit "params"));
     params ← (if negb has_params then mret PyNone
               else lift (py_getitem jrpcRequest (lit "params")));
     try_except
       (handler ← lift (py_table_getitem (JRPC_MAP fuel) method);
        jrpcResponse ← handler params;
        mret (JsonRpcResponse.new (ascii_bytes (json_dumps jrpcResponse))))
       (λ e, mret (error_response (-32603)))) w
end.
Proof.
unfold handleJsonRpcRequest.
change (text ← utf8_decode (JsonRpcRequest.jrpcRequest request); json_loads text)
  with (parse_request request).
destruct (parse_request request) as [jrpcRequest|e|]; [|run_M; by rewrite jrpcError_no_id|done].
rewrite !jrpcError_no_id. run_M.
repeat (match goal with
        | |- context [match ?x with _ => _ end] =>
            lazymatch x with
            | context [match _ with _ => _ end] => fail
            | utf8_encode _ => rewrite encode_json_dumps
            | _ => destruct x
            end
        end; try reflexivity).
Qed.
End Dispatch.

(** Outside the cases of C5: a payload that parses to a JSON number is not a
    request object, and the membership test on it raises out of the handler. *)
Lemma handleJsonRpcRequest_on_a_number `{Node} `{Python}
      (fuel : nat) (request : JsonRpcRequest.t) (w : world) (z : Z) :
  parse_request request = Returns (PyInt z) →
  handleJsonRpcRequest fuel request w = (raise "TypeError" "argument is not iterable", w).
Proof. intros Hparse. rewrite handleJsonRpcRequest_parsed, Hparse. reflexivity. Qed.

Lemma py_table_getitem_Returns {A} (table : gmap str A) key x :
  py_table_getitem table key = Returns x → ∃ name, key = PyStr name ∧ table !! name = Some x.
Proof.
  destruct key as [ | | | |name| | ]; unfold py_table_getitem, raise; try (intros; discriminate).
  destruct (table !! name) as [y|] eqn:Hlookup; [|intros; discriminate].
  intros [= <-]. eauto.
Qed.

(** C5: a payload that does not parse as UTF-8 JSON gets error code -32700; a
    request object without [jsonrpc] equal to "2.0", or without [method], gets
    -32600; a method name that is not in the method table gets -32601; a
    failure raised by the method's handler gets -32603. In each case the
    handler returns the error response; it does not raise. *)
Theorem handleJsonRpcRequest_error_codes `{Node} `{Python}
        (fuel : nat) (request : JsonRpcRequest.t) (w : world) :
  (∀ e, parse_request request = Raises e →
     handleJsonRpcRequest fuel request w = (Returns (error_response (-32700)), w)) ∧
  (∀ items, parse_request request = Returns (PyDict items) →
     assoc (lit "jsonrpc") items ≠ Some (PyStr (lit "2.0")) ∨
     assoc (lit "method") items = None →
     handleJsonRpcRequest fuel request w = (Returns (error_response (-32600)), w)) ∧
  (∀ items name, parse_request request = Returns (PyDict items) →
     assoc (lit "jsonrpc") items = Some (PyStr (lit "2.0")) →
     assoc (lit "method") items = Some (PyStr name) →
     JRPC_MAP fuel !! name = None →
     handleJsonRpcRequest fuel request w = (Returns (error_response (-32601)), w)) ∧
  (∀ items name handler e w', parse_request request = Returns (PyDict items) →
     assoc (lit "jsonrpc") items = Some (PyStr (lit "2.0")) →
     assoc (lit "method") items = Some (PyStr name) →
     JRPC_MAP fuel !! name = Some handler →
     handler (params_of items) w = (Raises e, w') →
     handleJsonRpcRequest fuel request w = (Returns (error_response (-32603)), w')).
Proof.
  split; [|split; [|split]].
  - intros e. apply handleJsonRpcRequest_unparsed.
  - intros items Hparse Hbad.
    destruct (assoc (lit "jsonrpc") items) as [v|] eqn:Hjsonrpc.
    + destruct (py_eq_str v (lit "2.0")) eqn:Hv.
      * apply py_eq_str_true in Hv as ->. destruct Hbad as [Hbad|Hmethod]; [done|].
        by apply (handleJsonRpcRequest_no_method _ _ _ items).
      * apply (handleJsonRpcRequest_bad_version _ _ _ items); [done|].
        rewrite Hjsonrpc. intros [= ->]. by rewrite py_eq_str_refl in Hv.
    + apply (handleJsonRpcRequest_bad_version _ _ _ items); [done|]. by rewrite Hjsonrpc.
  - intros items name Hparse Hversion Hmethod Hlookup.
    rewrite (handleJsonRpcRequest_method _ _ _ items name) by done.
    unfold M in *. by rewrite Hlookup.
  - intros items name handler e w' Hparse Hversion Hmethod Hlookup Hrun.
    rewrite (handleJsonRpcRequest_method _ _ _ items name) by done.
    unfold M in *. by rewrite Hlookup, Hrun.
Qed.

Lemma handleJsonRpcRequest_error_codes_witness :
  @handleJsonRpcRequest _ toy_chain_node (toy_python toy_table) 3 (toy_request (lit "{")) w0
  = (Returns (error_response (-32700)), w0) ∧
  @handleJsonRpcRequest _ toy_chain_node (toy_python toy_table) 3
     (toy_request text_no_version) w0
  = (Returns (error_response (-32600)), w0) ∧
  @handleJsonRpcRequest _ toy_chain_node (toy_python toy_table) 3
     (toy_request text_with_id) w0
  = (Returns (error_response (-32601)), w0) ∧
  @handleJsonRpcRequest _ toy_empty_node (toy_python toy_table) 3
     (toy_request text_getStats) w0
  = (Returns (error_response (-32603)), w0).
Proof.
  split; [|split; [|split]].
  - eapply (proj1 (@handleJsonRpcRequest_error_codes _ toy_chain_node (toy_python toy_table)
                     3 (toy_request (lit "{")) w0)).
    vm_compute. reflexivity.
  - eapply (proj1 (proj2 (@handleJsonRpcRequest_error_codes _ toy_chain_node
                     (toy_python toy_table) 3 (toy_request text_no_version) w0))).
    + vm_compute. reflexivity.
    + left. vm_compute. discriminate.
  - eapply (proj1 (proj2 (proj2 (@handleJsonRpcRequest_error_codes _ toy_chain_node
                     (toy_python toy_table) 3 (toy_request text_with_id) w0)))).
    + vm_compute. reflexivity.
    + reflexivity.
    + reflexivity.
    + reflexivity.
  - eapply (proj2 (proj2 (proj2 (@handleJsonRpcRequest_error_codes _ toy_empty_node
                     (toy_python toy_table) 3 (toy_request text_getStats) w0)))).
    + vm_compute. reflexivity.
    + reflexivity.
    + reflexivity.
    + reflexivity.
    + vm_compute. reflexivity.
Defined.

(** C4, as the code has it: every response of the JSON-RPC handler is either
    the handler's success payload or the object
    [{"jsonrpc": "2.0", "error": {"code": <int>}}] with one of the four error
    codes and these two members only. An error response never carries [id],
    whether or not the request had one. *)
Theorem error_responses_carry_no_id `{Node} `{Python}
        (fuel : nat) (request : JsonRpcRequest.t) (w w' : world)
        (response : JsonRpcResponse.t) :
  handleJsonRpcRequest fuel request w = (Returns response, w') →
  (∃ errorCode,
     errorCode ∈ [-32700; -32600; -32601; -32603] ∧
     JsonRpcResponse.jrpcResponse response = ascii_bytes (error_text errorCode)) ∨
  (∃ name handler params v,
     JRPC_MAP fuel !! name = Some handler ∧
     handler params w = (Returns v, w') ∧
     JsonRpcResponse.jrpcResponse response = ascii_bytes (json_dumps v)).
Proof.
  rewrite handleJsonRpcRequest_parsed.
  destruct (parse_request request) as [jrpcRequest|e|]; [|intros [= <- <-]|discriminate].
  2: { left. exists (-32700). split; [set_solver|done]. }
  run_M.
  repeat (match goal with
          | |- context [match ?x with _ => _ end] =>
              lazymatch x with
              | context [match _ with _ => _ end] => fail
              | _ => destruct x eqn:?
              end
          end; try discriminate).
  all: intros [= <- <-].
  all: try (left; eexists; split; [|reflexivity]; set_solver).
  all: right.
  all: match goal with Hget : py_table_getitem _ _ = Returns _ |- _ =>
         apply py_table_getitem_Returns in Hget as (name & -> & Hlookup) end.
  all: eauto 10.
Qed.

(** C4 as stated fails: the request
    [{"jsonrpc": "2.0", "id": 7, "method": "noSuchMethod"}] has an id, and its
    error response is [{"jsonrpc": "2.0", "error": {"code": -32601}}], with
    no id. *)
Lemma error_response_drops_request_id :
  @parse_request (toy_python toy_table) (toy_request text_with_id)
  = Returns (PyDict [ (lit "jsonrpc", PyStr (lit "2.0")); (lit "id", PyInt 7);
                      (lit "method", PyStr (lit "noSuchMethod")) ])
  ∧
  @handleJsonRpcRequest _ toy_chain_node (toy_python toy_table) 3
     (toy_request text_with_id) w0
  = (Returns (JsonRpcResponse.new
                (ascii_bytes (json_lit "{'jsonrpc': '2.0', 'error': {'code': -32601}}"))),
     w0).
Proof. split; vm_compute; reflexivity. Qed.

Lemma error_responses_carry_no_id_witness :
  (∃ errorCode,
     errorCode ∈ [-32700; -32600; -32601; -32603] ∧
     ascii_bytes (json_lit "{'jsonrpc': '2.0', 'error': {'code': -32601}}")
     = ascii_bytes (error_text errorCode)) ∨
  (∃ name handler params v,
     @JRPC_MAP _ toy_chain_node 3 !! name = Some handler ∧
     handler params w0 = (Returns v, w0) ∧
     ascii_bytes (json_lit "{'jsonrpc': '2.0', 'error': {'code': -32601}}")
     = ascii_bytes (@json_dumps (toy_python toy_table) v)).
Proof.
  apply (@error_responses_carry_no_id _ toy_chain_node (toy_python toy_table) 3
           (toy_request text_with_id) w0 w0
           (JsonRpcResponse.new
              (ascii_bytes (json_lit "{'jsonrpc': '2.0', 'error': {'code': -32601}}")))).
  vm_compute. reflexivity.
Defined.

(** C3, as the code has it: when the request parses to an object whose
    [jsonrpc] is "2.0" and whose [method] names a handler of the method table,
    and that handler returns a value, the response payload is the JSON text of
    that value itself, encoded as UTF-8; the value is not put inside a
    [result] member or any other enclosing object. *)
Theorem handleJsonRpcRequest_success_payload `{Node} `{Python}
        (fuel : nat) (request : JsonRpcRequest.t) (w w' : world)
        (items : list (str * pyval)) (name : str) (handler : pyval → M pyval) (v : pyval) :
  parse_request request = Returns (PyDict items) →
  assoc (lit "jsonrpc") items = Some (PyStr (lit "2.0")) →
  assoc (lit "method") items = Some (PyStr name) →
  JRPC_MAP fuel !! name = Some handler →
  handler (params_of items) w = (Returns v, w') →
  ∃ payload,
    utf8_encode (json_dumps v) = Returns payload ∧
    handleJsonRpcRequest fuel request w = (Returns (JsonRpcResponse.new payload), w').
Proof.
  intros Hparse Hversion Hmethod Hlookup Hrun.
  exists (ascii_bytes (json_dumps v)). split; [apply encode_json_dumps|].
  rewrite (handleJsonRpcRequest_method _ _ _ items name) by done.
  unfold M in *. by rewrite Hlookup, Hrun.
Qed.

(** C3 as stated fails: for [{"jsonrpc": "2.0", "method": "getStats"}] the
    handler returns the stats object, and the response payload is that object's
    own JSON text, which has no [result] member. *)
Lemma success_payload_has_no_result_member :
  @jrpcGetStats _ toy_chain_node 3 PyNone w0 = (Returns toy_stats, World 4 []) ∧
  py_contains toy_stats (lit "result") = Returns false ∧
  @handleJsonRpcRequest _ toy_chain_node (toy_python toy_table) 3
     (toy_request text_getStats) w0
  = (Returns (JsonRpcResponse.new (ascii_bytes (json_lit
       "{'shardSize': 1, 'rootHeight': 0, 'rootDifficulty': 0, 'avgMinorHeight': 2, 'avgMinorDifficulty': 1, 'minorBlocksIn60s': 1, 'minorBlocksIn300s': 2, 'transactionsIn60s': 0, 'transactionsIn300s': 0}"))),
     World 4 []).
Proof. split; [|split]; vm_compute; reflexivity. Qed.

Lemma handleJsonRpcRequest_success_payload_witness :
  ∃ payload,
    utf8_encode (@json_dumps (toy_python toy_table) toy_stats) = Returns payload ∧
    @handleJsonRpcRequest _ toy_chain_node (toy_python toy_table) 3
       (toy_request text_getStats) w0
    = (Returns (JsonRpcResponse.new payload), World 4 []).
Proof.
  eapply (@handleJsonRpcRequest_success_payload _ toy_chain_node (toy_python toy_table) 3
            (toy_request text_getStats) w0 (World 4 []) _ (lit "getStats")
            (@jrpcGetStats _ toy_chain_node 3) toy_stats).
  - vm_compute. reflexivity.
  - reflexivity.
  - reflexivity.
  - reflexivity.
  - vm_compute. reflexivity.
Defined.

(** ** Stats aggregator *)

Lemma range_S n : range (Z.of_nat (S n)) = range (Z.of_nat n) ++ [Z.of_nat n].
Proof.
  unfold range. rewrite !Nat2Z.id, seq_S, fmap_app. reflexivity.
Qed.

Lemma elem_of_range n x : x ∈ range n ↔ 0 ≤ x < n.
Proof.
  unfold range. rewrite list_elem_of_fmap. setoid_rewrite elem_of_seq. split.
  - intros (k & -> & Hk). lia.
  - intros Hx. exists (Z.to_nat x). lia.
Qed.

Lemma foldM_sum {A} (f : Z → A → outcome Z) (g : A → Z) (l : list A) acc :
  (∀ acc x, x ∈ l → f acc x = Returns (acc + g x)) →
  foldM f acc l = Returns (acc + sum_Z (g <$> l)).
Proof.
  revert acc. induction l as [|x l IH]; intros acc Hf; cbn [foldM fmap list_fmap sum_Z].
  - f_equal. lia.
  - rewrite Hf by set_solver. cbn [mbind outcome_bind]. rewrite IH.
    + f_equal. lia.
    + intros acc' y Hy. apply Hf. set_solver.
Qed.

Lemma sum_Z_ones {A} (l : list A) : sum_Z ((λ _, 1) <$> l) = Z.of_nat (length l).
Proof.
  induction l as [|x l IH]; [done|].
  cbn [fmap list_fmap sum_Z length]. change (list_fmap A Z (λ _, 1) l) with ((λ _ : A, 1) <$> l). rewrite IH. lia.
Qed.

Section StatsFacts.
Context `{Node}.

Lemma walk_headers_spec now sec func shardId :
  ∀ n fuel header metric,
    (∀ h, 0 ≤ h < Z.of_nat n →
       MinorBlockHeader.height (getMinorBlockHeaderByHeight shardId h) = h) →
    MinorBlockHeader.height header = Z.of_nat n → (n < fuel)%nat →
    walk_headers fuel now sec func shardId header metric
    = Returns (metric + sum_Z (func <$> take_while (in_window now sec)
                 (header :: (getMinorBlockHeaderByHeight shardId <$> rev (range (Z.of_nat n)))))).
Proof.
  induction n as [|n IH]; intros fuel header metric Hwf Hheight Hfuel;
    (destruct fuel as [|fuel]; [lia|]); cbn [walk_headers take_while];
    fold (in_window now sec header); destruct (in_window now sec header); cbn [fmap list_fmap sum_Z];
    try (f_equal; lia).
  - rewrite decide_True by (rewrite Hheight; done).
    change (range (Z.of_nat 0)) with (@nil Z).
    cbn [rev fmap list_fmap take_while sum_Z]. f_equal. lia.
  - rewrite decide_False by lia.
    rewrite range_S, rev_app_distr. cbn [rev app fmap list_fmap].
    rewrite Hheight. replace (Z.of_nat (S n) - 1) with (Z.of_nat n) by lia.
    rewrite IH; [|intros h Hh; apply Hwf; lia|apply Hwf; lia|lia].
    f_equal. cbn [fmap list_fmap sum_Z]. lia.
Qed.

Lemma walk_blocks_as_headers fuel now sec func shardId header metric :
  walk_blocks fuel now sec func shardId header metric
  = walk_headers fuel now sec (λ h, func (getMinorBlockByHash (MinorBlockHeader.getHash h)))
      shardId header metric.
Proof.
  revert header metric. induction fuel as [|fuel IH]; intros header metric; [done|].
  cbn. destruct (Qle_bool _ _); [|done]. by destruct (decide _).
Qed.

Lemma walk_headers_shard fuel now sec func shardId metric :
  chains_well_formed → fuel_covers fuel → 0 ≤ shardId < getShardSize →
  walk_headers fuel now sec func shardId (getMinorBlockTip shardId) metric
  = Returns (metric + sum_Z (func <$> window_headers now sec shardId)).
Proof.
  intros Hwf Hfuel Hshard. destruct (Hwf shardId Hshard) as [Htip Hh].
  specialize (Hfuel shardId Hshard).
  rewrite (walk_headers_spec now sec func shardId
             (Z.to_nat (MinorBlockHeader.height (getMinorBlockTip shardId))));
    [|intros h Hlt; apply Hh; lia|lia..].
  unfold window_headers, chain_back. by rewrite Z2Nat.id.
Qed.

Lemma countMinorBlockHeaderStatsIn_spec fuel sec func w :
  chains_well_formed → fuel_covers fuel →
  countMinorBlockHeaderStatsIn fuel sec func w
  = (Returns (sum_Z ((λ shardId, sum_Z (func <$> window_headers (time_time (ticks w)) sec shardId))
                       <$> range getShardSize)),
     World (S (ticks w)) (calls w)).
Proof.
  intros Hwf Hfuel. unfold countMinorBlockHeaderStatsIn. run_M.
  rewrite (foldM_sum _ (λ shardId, sum_Z (func <$> window_headers (time_time (ticks w)) sec shardId))).
  - by rewrite Z.add_0_l.
  - intros acc shardId Hshard%elem_of_range. by apply walk_headers_shard.
Qed.

Lemma countMinorBlockStatsIn_spec fuel sec func w :
  chains_well_formed → fuel_covers fuel →
  countMinorBlockStatsIn fuel sec func w
  = (Returns (sum_Z ((λ shardId,
                sum_Z ((λ h, func (getMinorBlockByHash (MinorBlockHeader.getHash h)))
                         <$> window_headers (time_time (ticks w)) sec shardId))
                       <$> range getShardSize)),
     World (S (ticks w)) (calls w)).
Proof.
  intros Hwf Hfuel. unfold countMinorBlockStatsIn. run_M.
  rewrite (foldM_sum _ (λ shardId,
    sum_Z ((λ h, func (getMinorBlockByHash (MinorBlockHeader.getHash h)))
             <$> window_headers (time_time (ticks w)) sec shardId))).
  - by rewrite Z.add_0_l.
  - intros acc shardId Hshard%elem_of_range.
    rewrite walk_blocks_as_headers. by apply walk_headers_shard.
Qed.
End StatsFacts.

Lemma in_window_Z (now sec : Z) (header : MinorBlockHeader.t) :
  in_window (inject_Z now) sec header
  = (now - sec <=? MinorBlockHeader.createTime header).
Proof.
  unfold in_window. apply eq_true_iff_eq.
  rewrite Qle_bool_iff, Z.leb_le, Zle_Qle, <- Z.add_opp_r, inject_Z_plus, inject_Z_opp.
  reflexivity.
Qed.

Lemma synthetic_chain_well_formed (now : Z) :
  @chains_well_formed _ (toy_node (None, None) None (synthetic_chain now) (inject_Z now)).
Proof.
  intros shardId Hshard. change (0 ≤ shardId < 1) in Hshard.
  assert (shardId = 0) as -> by lia.
  split; [done|]. intros h Hh. change (0 ≤ h < 2) in Hh.
  assert (h = 0 ∨ h = 1) as [-> | ->] by lia; reflexivity.
Qed.

Lemma synthetic_chain_fuel (now : Z) :
  @fuel_covers _ (toy_node (None, None) None (synthetic_chain now) (inject_Z now)) 3.
Proof.
  intros shardId Hshard. change (0 ≤ shardId < 1) in Hshard.
  assert (shardId = 0) as -> by lia. done.
Qed.

Lemma synthetic_chain_back (now : Z) :
  @chain_back _ (toy_node (None, None) None (synthetic_chain now) (inject_Z now)) 0
  = [ MinorBlockHeader.new (now - 10) 2 1 [];
      MinorBlockHeader.new (now - 70) 1 1 [];
      MinorBlockHeader.new (now - 400) 0 1 [] ].
Proof. reflexivity. Qed.

(** C6: one pass of [countMinorBlockHeaderStatsIn] reads the clock once, and
    the count it returns is, summed over the shards, the number of headers met
    walking back from the shard's tip one height at a time until genesis has
    been processed or a header is older than [now - sec], [now] being that one
    reading. On the synthetic chain (heights 2, 1, 0 created 10, 70 and 400
    seconds before [now]) the 60-second window counts 1 block and the
    300-second window counts 2. *)
Theorem countMinorBlockHeaderStatsIn_counts :
  (∀ (C : Core) (node : @Node C) (fuel : nat) (sec : Z) (w : world),
     chains_well_formed → fuel_covers fuel →
     countMinorBlockHeaderStatsIn fuel sec (λ h, 1) w
     = (Returns (sum_Z ((λ shardId,
                   Z.of_nat (length (window_headers (time_time (ticks w)) sec shardId)))
                          <$> range getShardSize)),
        World (S (ticks w)) (calls w))) ∧
  (∀ now : Z,
     @countMinorBlockHeaderStatsIn _
        (toy_node (None, None) None (synthetic_chain now) (inject_Z now)) 3 60 (λ h, 1) w0
     = (Returns 1, World 1 []) ∧
     @countMinorBlockHeaderStatsIn _
        (toy_node (None, None) None (synthetic_chain now) (inject_Z now)) 3 300 (λ h, 1) w0
     = (Returns 2, World 1 [])).
Proof.
  assert (∀ (C : Core) (node : @Node C) (fuel : nat) (sec : Z) (w : world),
     chains_well_formed → fuel_covers fuel →
     countMinorBlockHeaderStatsIn fuel sec (λ h, 1) w
     = (Returns (sum_Z ((λ shardId,
                   Z.of_nat (length (window_headers (time_time (ticks w)) sec shardId)))
                          <$> range getShardSize)),
        World (S (ticks w)) (calls w))) as Hcount.
  { intros C node fuel sec w Hwf Hfuel.
    rewrite countMinorBlockHeaderStatsIn_spec by done. do 3 f_equal.
    apply list_fmap_ext. intros _ shardId _. apply sum_Z_ones. }
  split; [exact Hcount|].
  intros now.
  pose proof (synthetic_chain_back now) as Hchain.
  split; rewrite Hcount by (apply synthetic_chain_well_formed || apply synthetic_chain_fuel);
    do 2 f_equal;
    change (range getShardSize) with [0]; cbn [fmap list_fmap sum_Z];
    change (time_time (ticks w0)) with (inject_Z now);
    unfold window_headers; rewrite Hchain; cbn [take_while];
    rewrite !in_window_Z; cbn [MinorBlockHeader.createTime].
  - replace (now - 60 <=? now - 10) with true by (symmetry; apply Z.leb_le; lia).
    replace (now - 60 <=? now - 70) with false by (symmetry; apply Z.leb_gt; lia).
    reflexivity.
  - replace (now - 300 <=? now - 10) with true by (symmetry; apply Z.leb_le; lia).
    replace (now - 300 <=? now - 70) with true by (symmetry; apply Z.leb_le; lia).
    replace (now - 300 <=? now - 400) with false by (symmetry; apply Z.leb_gt; lia).
    reflexivity.
Qed.

Lemma countMinorBlockHeaderStatsIn_counts_witness :
  @countMinorBlockHeaderStatsIn _ toy_chain_node 3 60 (λ h, 1) w0
  = (Returns (sum_Z ((λ shardId,
                Z.of_nat (length (@window_headers _ toy_chain_node 1000 60 shardId)))
                       <$> range 1)),
     World 1 []).
Proof.
  apply (proj1 countMinorBlockHeaderStatsIn_counts toy_core toy_chain_node 3%nat 60 w0).
  - apply (synthetic_chain_well_formed 1000).
  - apply (synthetic_chain_fuel 1000).
Defined.

Lemma statistics_mean_returns (data : list Z) :
  data ≠ [] → ∃ v, statistics_mean data = Returns v.
Proof.
  destruct data as [|x data]; [done|]. intros _. unfold statistics_mean.
  destruct (decide _); eauto.
Qed.

Lemma range_nonempty {A} (f : Z → A) (n : Z) : 1 ≤ n → f <$> range n ≠ [].
Proof.
  intros Hn. unfold range. destruct (Z.to_nat n) as [|k] eqn:Hk; [lia|]. done.
Qed.

Lemma JRPC_MAP_getStats `{Node} (fuel : nat) :
  JRPC_MAP fuel !! lit "getStats" = Some (jrpcGetStats fuel).
Proof. unfold JRPC_MAP. apply lookup_singleton_eq. Qed.





(** ** More on the command handlers *)

Section HandlerFacts.
Context `{Node}.

(** The submit handler never reads the clock, and it calls the state engine
    exactly when the block decodes: once, with the append operation of the
    declared kind, also when the handler then raises. *)
Theorem handleSubmitNewBlockRequest_engine_calls
        (request : SubmitNewBlockRequest.t) (w : world) :
  ∃ o, handleSubmitNewBlockRequest request w
       = (o, World (ticks w)
               (calls w ++ match decode_block request with
                           | Returns b => [append_call b]
                           | _ => []
                           end)).
Proof.
  unfold handleSubmitNewBlockRequest, decode_block. destruct w as [t c]. cbn [ticks calls].
  destruct (decide (SubmitNewBlockRequest.isRootBlock request ≠ 0)).
  - destruct (RootBlock_deserialize _) as [b|e|]; run_M; cbn [ticks calls mbind outcome_bind].
    + destruct (appendRootBlock b) as [msg|]; [destruct (ascii_encode msg)|]; eexists; reflexivity.
    + rewrite app_nil_r. destruct (ascii_encode _); eexists; reflexivity.
    + rewrite app_nil_r. eexists; reflexivity.
  - destruct (MinorBlock_deserialize _) as [b|e|]; run_M; cbn [ticks calls mbind outcome_bind].
    + destruct (appendMinorBlock b) as [msg|]; [destruct (ascii_encode msg)|]; eexists; reflexivity.
    + rewrite app_nil_r. destruct (ascii_encode _); eexists; reflexivity.
    + rewrite app_nil_r. eexists; reflexivity.
Qed.

Lemma ascii_encode_Returns s bs : ascii_encode s = Returns bs → is_ascii s = true ∧ bs = ascii_bytes s.
Proof.
  unfold ascii_encode, is_ascii, ascii_bytes. destruct (forallb _ s); [|discriminate].
  by intros [= <-].
Qed.

(** Every response of the submit handler is one of three: code 0 with an
    empty message, the block decoded and the engine accepted it; code 1 with
    the text of the decode error; code 1 with the engine's description. *)
Theorem handleSubmitNewBlockRequest_result_code
        (request : SubmitNewBlockRequest.t) (w w' : world) (response : SubmitNewBlockResponse.t) :
  handleSubmitNewBlockRequest request w = (Returns response, w') →
  (response = SubmitNewBlockResponse.new 0 [] ∧
   ∃ b, decode_block request = Returns b ∧ engine_verdict b = None) ∨
  (∃ text, is_ascii text = true ∧
     response = SubmitNewBlockResponse.new 1 (ascii_bytes text) ∧
     ((∃ e, decode_block request = Raises e ∧ exn_text e = text) ∨
      (∃ b, decode_block request = Returns b ∧ engine_verdict b = Some text))).
Proof.
  unfold handleSubmitNewBlockRequest, decode_block.
  destruct (decide (SubmitNewBlockRequest.isRootBlock request ≠ 0)).
  - destruct (RootBlock_deserialize _) as [b|e|]; run_M; cbn [mbind outcome_bind].
    + destruct (appendRootBlock b) as [msg|] eqn:Hv.
      * destruct (ascii_encode msg) as [bs| |] eqn:Hbs; try discriminate.
        apply ascii_encode_Returns in Hbs as [Hascii ->]. intros [= <- <-].
        right. exists msg. eauto 10.
      * intros [= <- <-]. left. eauto.
    + destruct (ascii_encode _) as [bs| |] eqn:Hbs; try discriminate.
      apply ascii_encode_Returns in Hbs as [Hascii ->]. intros [= <- <-].
      right. eexists. eauto 10.
    + discriminate.
  - destruct (MinorBlock_deserialize _) as [b|e|]; run_M; cbn [mbind outcome_bind].
    + destruct (appendMinorBlock b) as [msg|] eqn:Hv.
      * destruct (ascii_encode msg) as [bs| |] eqn:Hbs; try discriminate.
        apply ascii_encode_Returns in Hbs as [Hascii ->]. intros [= <- <-].
        right. exists msg. eauto 10.
      * intros [= <- <-]. left. eauto.
    + destruct (ascii_encode _) as [bs| |] eqn:Hbs; try discriminate.
      apply ascii_encode_Returns in Hbs as [Hascii ->]. intros [= <- <-].
      right. eexists. eauto 10.
    + discriminate.
Qed.

(** The get-block-template handler ignores its request (address, includeRoot
    and shardMaskList have no influence) and changes nothing. A response
    carries the engine's flag as 0 or 1 and the encoding of the engine's
    block, or (0, empty) when the flag is [None]. Given a flag and no block,
    the handler raises [AttributeError]. *)
Theorem handleGetBlockTemplateRequest_depends_on_the_engine_only
        (request request' : GetBlockTemplateRequest.t) (w : world) :
  handleGetBlockTemplateRequest request w = handleGetBlockTemplateRequest request' w ∧
  ∃ o, handleGetBlockTemplateRequest request w = (o, w) ∧
    (∀ response, o = Returns response →
       match findBestBlockToMine.1 with
       | None => response = GetBlockTemplateResponse.new 0 []
       | Some flag =>
           GetBlockTemplateResponse.isRootBlock response = (if flag then 1 else 0) ∧
           Block_serialize findBestBlockToMine.2
           = Returns (GetBlockTemplateResponse.blockData response)
       end) ∧
    (is_Some findBestBlockToMine.1 → findBestBlockToMine.2 = None →
       o = raise "AttributeError" "'NoneType' object has no attribute 'serialize'").
Proof.
  split; [reflexivity|]. unfold handleGetBlockTemplateRequest.
  destruct findBestBlockToMine as [[[]|] [[b|b]|]]; run_M; cbn [Block_serialize fst snd];
    eexists; (split; [reflexivity|]); split;
    try (by intros response [= <-]); try (intros response; discriminate).
  all: try (intros _; discriminate).
  all: try (by intros [? ?]).
  all: intros _ _; reflexivity.
Qed.

Lemma for_each_enqueue_returns (l : list NewTransaction.t) (w : world) :
  addTransactionToQueue [] = Returns () →
  for_each l (λ newTx, qc_addTransactionToQueue []) w
  = (Returns (), World (ticks w) (calls w ++ replicate (length l) (AddTransactionToQueue []))).
Proof.
  intros Hcall. revert w. induction l as [|newTx l IH]; intros w.
  - cbn. rewrite app_nil_r. by destruct w.
  - rewrite for_each_cons, qc_addTransactionToQueue_run, Hcall, IH. cbn [ticks calls].
    by rewrite <- app_assoc.
Qed.

(** The add-transactions handler on an empty list answers 0 without calling
    the engine; on a list that is not empty, an enqueue call that fails stops
    the handler after that one call with the call's error, and no response is
    produced; when the argument-less call returns, every envelope is counted. *)
Theorem handleAddNewTransactionListRequest_outcome
        (request : AddNewTransactionListRequest.t) (w : world) :
  let n := length (AddNewTransactionListRequest.txList request) in
  (n = 0%nat →
     handleAddNewTransactionListRequest request w
     = (Returns (AddNewTransactionListResponse.new 0), w)) ∧
  (∀ e, n ≠ 0%nat → addTransactionToQueue [] = Raises e →
     handleAddNewTransactionListRequest request w
     = (Raises e, World (ticks w) (calls w ++ [AddTransactionToQueue []]))) ∧
  (addTransactionToQueue [] = Returns () →
     handleAddNewTransactionListRequest request w
     = (Returns (AddNewTransactionListResponse.new (Z.of_nat n)),
        World (ticks w) (calls w ++ replicate n (AddTransactionToQueue [])))).
Proof.
  unfold handleAddNewTransactionListRequest. cbv zeta.
  destruct (AddNewTransactionListRequest.txList request) as [|newTx l] eqn:Hl.
  - split; [|split].
    + intros _. reflexivity.
    + intros e Hn. done.
    + intros _. cbn. rewrite app_nil_r. by destruct w.
  - split; [|split].
    + discriminate.
    + intros e _ Hcall. unfold mbind, M_bind.
      rewrite for_each_cons, qc_addTransactionToQueue_run, Hcall. reflexivity.
    + intros Hcall. unfold mbind, M_bind. by rewrite for_each_enqueue_returns.
Qed.
End HandlerFacts.

Lemma handleSubmitNewBlockRequest_result_code_witness :
  (SubmitNewBlockResponse.new 1 (ascii_bytes (lit "stale block"))
   = SubmitNewBlockResponse.new 0 [] ∧
   ∃ b, @decode_block toy_core (SubmitNewBlockRequest.new 1 [x2a]) = Returns b ∧
        @engine_verdict _ (toy_node (None, None) (Some (lit "stale block")) [] 0) b = None) ∨
  (∃ text, is_ascii text = true ∧
     SubmitNewBlockResponse.new 1 (ascii_bytes (lit "stale block"))
     = SubmitNewBlockResponse.new 1 (ascii_bytes text) ∧
     ((∃ e, @decode_block toy_core (SubmitNewBlockRequest.new 1 [x2a]) = Raises e ∧
            exn_text e = text) ∨
      (∃ b, @decode_block toy_core (SubmitNewBlockRequest.new 1 [x2a]) = Returns b ∧
            @engine_verdict _ (toy_node (None, None) (Some (lit "stale block")) [] 0) b
            = Some text))).
Proof.
  apply (@handleSubmitNewBlockRequest_result_code _
           (toy_node (None, None) (Some (lit "stale block")) [] 0)
           (SubmitNewBlockRequest.new 1 [x2a]) w0
           (World 0 [@AppendRootBlock toy_core [x2a]])).
  vm_compute. reflexivity.
Defined.

Lemma handleGetBlockTemplateRequest_depends_on_the_engine_only_witness :
  @handleGetBlockTemplateRequest _ (toy_node (Some true, None) None [] 0)
     (GetBlockTemplateRequest.new [] 1 []) w0
  = (raise "AttributeError" "'NoneType' object has no attribute 'serialize'", w0).
Proof.
  destruct (proj2 (@handleGetBlockTemplateRequest_depends_on_the_engine_only _
                     (toy_node (Some true, None) None [] 0)
                     (GetBlockTemplateRequest.new [] 1 [])
                     (GetBlockTemplateRequest.new [] 0 [7]) w0))
    as (o & Hrun & _ & Hraises).
  rewrite (Hraises ltac:(by eexists) eq_refl) in Hrun. exact Hrun.
Defined.

Lemma handleAddNewTransactionListRequest_outcome_witness :
  @handleAddNewTransactionListRequest _ toy_chain_node
     (@AddNewTransactionListRequest.new toy_core []) w0
  = (Returns (AddNewTransactionListResponse.new 0), w0) ∧
  @handleAddNewTransactionListRequest _ toy_chain_node
     (@AddNewTransactionListRequest.new toy_core
        [@NewTransaction.new toy_core 0 [x01]; @NewTransaction.new toy_core 0 [x02]]) w0
  = (raise "TypeError" "addTransactionToQueue() missing 1 required positional argument",
     World 0 [@AddTransactionToQueue toy_core []]) ∧
  @handleAddNewTransactionListRequest _ toy_lenient_node
     (@AddNewTransactionListRequest.new toy_core
        [@NewTransaction.new toy_core 0 [x01]; @NewTransaction.new toy_core 0 [x02]]) w0
  = (Returns (AddNewTransactionListResponse.new 2),
     World 0 [@AddTransactionToQueue toy_core []; @AddTransactionToQueue toy_core []]).
Proof.
  split; [|split].
  - exact (proj1 (@handleAddNewTransactionListRequest_outcome _ toy_chain_node
             (@AddNewTransactionListRequest.new toy_core []) w0) eq_refl).
  - apply (proj1 (proj2 (@handleAddNewTransactionListRequest_outcome _ toy_chain_node
             (@AddNewTransactionListRequest.new toy_core
                [@NewTransaction.new toy_core 0 [x01]; @NewTransaction.new toy_core 0 [x02]])
             w0))).
    + discriminate.
    + reflexivity.
  - exact (proj2 (proj2 (@handleAddNewTransactionListRequest_outcome _ toy_lenient_node
             (@AddNewTransactionListRequest.new toy_core
                [@NewTransaction.new toy_core 0 [x01]; @NewTransaction.new toy_core 0 [x02]])
             w0)) eq_refl).
Defined.

(** ** Dispatch tables *)

(** The two tables agree. Every op-code that has a handler is even, answers
    with the next op-code, and that response op-code has no handler of its
    own; both have a schema. And every op-code that has a schema is such a
    request or such a response. *)
Theorem dispatch_tables_agree (op : Z) :
  (∀ response handler, OP_RPC_MAP !! op = Some (response, handler) →
     response = op + 1 ∧ Z.even op = true ∧ OP_RPC_MAP !! response = None ∧
     is_Some (OP_SER_MAP !! op) ∧ is_Some (OP_SER_MAP !! response)) ∧
  (is_Some (OP_SER_MAP !! op) →
     is_Some (OP_RPC_MAP !! op) ∨ ∃ request handler, OP_RPC_MAP !! request = Some (op, handler)).
Proof.
  split.
  - intros response handler Hrpc. unfold OP_RPC_MAP in Hrpc.
    apply elem_of_list_to_map_2 in Hrpc.
    repeat (apply elem_of_cons in Hrpc as [[= -> -> ->]|Hrpc];
            [by repeat (split; [by vm_compute|])|]).
    by apply elem_of_nil in Hrpc.
  - intros [class Hser]. unfold OP_SER_MAP in Hser.
    apply elem_of_list_to_map_2 in Hser.
    repeat (apply elem_of_cons in Hser as [[= -> ->]|Hser];
            [first [ left; vm_compute; by eexists
                   | match goal with
                     | |- _ ∨ ∃ request handler, _ !! request = Some (?response, handler) =>
                         right; exists (response - 1); eexists; vm_compute; reflexivity
                     end ]|]).
    by apply elem_of_nil in Hser.
Qed.

Lemma dispatch_tables_agree_witness :
  LocalCommandOp.SUBMIT_NEW_BLOCK_RESPONSE = LocalCommandOp.SUBMIT_NEW_BLOCK_REQUEST + 1 ∧
  Z.even LocalCommandOp.SUBMIT_NEW_BLOCK_REQUEST = true ∧
  OP_RPC_MAP !! LocalCommandOp.SUBMIT_NEW_BLOCK_RESPONSE = None ∧
  is_Some (OP_SER_MAP !! LocalCommandOp.SUBMIT_NEW_BLOCK_REQUEST) ∧
  is_Some (OP_SER_MAP !! LocalCommandOp.SUBMIT_NEW_BLOCK_RESPONSE).
Proof.
  exact (proj1 (dispatch_tables_agree LocalCommandOp.SUBMIT_NEW_BLOCK_REQUEST)
           _ handleSubmitNewBlockRequest_name eq_refl).
Defined.

(** ** More on the wire schema *)

Lemma declared_messages_round_trip_witness :
  ∃ consumed,
    [x01; x00; x00; x00; x02; x68; x69; xff] = consumed ++ [xff] ∧
    serialize (class_serializer SubmitNewBlockResponse_FIELDS)
      (WObj [("resultCode", WInt 1); ("resultMessage", WBytes [x68; x69])])
    = Returns consumed.
Proof.
  apply (proj1 (proj2 (proj2 (proj2
           (declared_messages_round_trip toy_Transaction toy_Transaction
              (PreprendedSizeBytesSerializer_round_trips 4)
              (PreprendedSizeBytesSerializer_round_trips 4)))))).
  vm_compute. reflexivity.
Defined.

(** ** More on the JSON-RPC dispatch *)

Lemma ascii_bytes_below_128 s :
  is_ascii s = true → Forall (λ b, Z_of_byte b < 128) (ascii_bytes s).
Proof.
  intros Hs. pose proof (ascii_bytes_codes s Hs) as Hcodes.
  apply Forall_forall. intros b Hb.
  assert (Byte.to_N b ∈ s) as Hin.
  { rewrite <- Hcodes. by apply list_elem_of_fmap_2. }
  unfold is_ascii in Hs. rewrite forallb_forall in Hs.
  apply list_elem_of_In, Hs, N.ltb_lt in Hin. unfold Z_of_byte. lia.
Qed.

Lemma error_text_ascii errorCode : is_ascii (error_text errorCode) = true.
Proof.
  unfold error_text. by rewrite !is_ascii_app, str_of_Z_ascii.
Qed.

Lemma JRPC_MAP_lookup `{Node} (fuel : nat) name handler :
  JRPC_MAP fuel !! name = Some handler → name = lit "getStats" ∧ handler = jrpcGetStats fuel.
Proof. unfold JRPC_MAP. by intros [-> ->]%lookup_singleton_Some. Qed.

Section JsonRpcFacts.
Context `{Node} `{Python}.

Lemma json_dumps_error_with_id errorCode jrpcId :
  jrpcId ≠ PyNone →
  json_dumps (jrpcError_response errorCode jrpcId) = error_text_with_id errorCode jrpcId.
Proof.
  intros Hid. unfold error_text_with_id, jrpcError_response.
  assert (json_dumps (PyDict (assoc_set (lit "id") jrpcId
            [ (lit "jsonrpc", PyStr (lit "2.0"));
              (lit "error", PyDict [(lit "code", PyInt errorCode)]) ]))
          = json_lit "{'jsonrpc': '2.0', 'error': {'code': " ++ str_of_Z errorCode ++
            json_lit "}, 'id': " ++ json_dumps jrpcId ++ lit "}") as Hdumps.
  { change (assoc_set (lit "id") jrpcId
              [ (lit "jsonrpc", PyStr (lit "2.0"));
                (lit "error", PyDict [(lit "code", PyInt errorCode)]) ])
      with [ (lit "jsonrpc", PyStr (lit "2.0"));
             (lit "error", PyDict [(lit "code", PyInt errorCode)]);
             (lit "id", jrpcId) ].
    cbn [json_dumps map join].
    generalize (str_of_Z errorCode) as code. generalize (json_dumps jrpcId) as id.
    intros id code. rewrite <- !app_assoc. vm_compute. reflexivity. }
  by destruct jrpcId.
Qed.

(** [jrpcError] with an id: the response is the error object followed by the
    id as its third member, for every id other than [None], the falsy ids
    [0], [false] and the empty string included; it never raises. *)
Theorem jrpcError_echoes_every_id (errorCode : Z) (jrpcId : pyval) :
  jrpcId ≠ PyNone →
  jrpcError errorCode jrpcId
  = Returns (JsonRpcResponse.new (ascii_bytes (error_text_with_id errorCode jrpcId))).
Proof.
  intros Hid. unfold jrpcError. by rewrite encode_json_dumps, json_dumps_error_with_id.
Qed.

Ltac split_handler :=
  repeat (match goal with
          | |- context [match ?x with _ => _ end] =>
              lazymatch x with
              | context [match _ with _ => _ end] => fail
              | _ => destruct x eqn:?
              end
          end; try discriminate).

(** Every payload the handler returns is the ASCII encoding of some text. *)
Lemma handleJsonRpcRequest_payload fuel request w w' response :
  handleJsonRpcRequest fuel request w = (Returns response, w') →
  ∃ text, is_ascii text = true ∧ JsonRpcResponse.jrpcResponse response = ascii_bytes text.
Proof.
  rewrite handleJsonRpcRequest_parsed.
  destruct (parse_request request) as [jrpcRequest|e|]; [|intros [= <- <-]|discriminate].
  2: { eexists. split; [apply error_text_ascii|done]. }
  run_M. split_handler.
  all: intros [= <- <-].
  all: eexists; (split; [|reflexivity]); first [apply error_text_ascii | apply json_dumps_ascii].
Qed.

(** Whatever the request, a response payload holds ASCII bytes only. *)
Theorem response_payload_is_ascii (fuel : nat) (request : JsonRpcRequest.t)
        (w w' : world) (response : JsonRpcResponse.t) :
  handleJsonRpcRequest fuel request w = (Returns response, w') →
  Forall (λ b, Z_of_byte b < 128) (JsonRpcResponse.jrpcResponse response).
Proof.
  intros (text & Htext & ->)%handleJsonRpcRequest_payload.
  by apply ascii_bytes_below_128.
Qed.

(** A payload that parses to [null], a boolean or a number is not answered:
    the membership test on it raises [TypeError] out of the handler, and
    nothing else happens. *)
Theorem scalar_request_raises (fuel : nat) (request : JsonRpcRequest.t) (w : world)
        (v : pyval) :
  parse_request request = Returns v → is_scalar v = true →
  ∃ text, handleJsonRpcRequest fuel request w = (Raises (Exception "TypeError" text), w).
Proof.
  intros Hparse Hscalar. rewrite handleJsonRpcRequest_parsed, Hparse.
  destruct v; try discriminate; eexists; reflexivity.
Qed.

(** A payload that parses to an array or a string: the test
    ["jsonrpc" in jrpcRequest] is an element test on the array and a substring
    test on the string. When it fails the answer is -32600; when it succeeds,
    indexing by ["jsonrpc"] raises [TypeError] out of the handler. *)
Theorem array_or_string_request (fuel : nat) (request : JsonRpcRequest.t) (w : world) :
  (∀ l, parse_request request = Returns (PyList l) →
     if existsb (λ x, py_eq_str x (lit "jsonrpc")) l
     then ∃ text, handleJsonRpcRequest fuel request w
                  = (Raises (Exception "TypeError" text), w)
     else handleJsonRpcRequest fuel request w = (Returns (error_response (-32600)), w)) ∧
  (∀ s, parse_request request = Returns (PyStr s) →
     if is_substr (lit "jsonrpc") s
     then ∃ text, handleJsonRpcRequest fuel request w
                  = (Raises (Exception "TypeError" text), w)
     else handleJsonRpcRequest fuel request w = (Returns (error_response (-32600)), w)).
Proof.
  split; intros x Hparse; rewrite handleJsonRpcRequest_parsed, Hparse;
    cbn [py_contains]; run_M.
  - destruct (existsb _ x); [eexists|]; reflexivity.
  - destruct (is_substr _ x); [eexists|]; reflexivity.
Qed.

(** A request object whose [method] is not a string: a number, a boolean or
    [null] is an unknown method (-32601); an array or an object cannot be
    looked up in the method table, and the lookup raises [TypeError] out of
    the handler. *)
Theorem method_that_is_not_a_name (fuel : nat) (request : JsonRpcRequest.t) (w : world)
        (items : list (str * pyval)) (method : pyval) :
  parse_request request = Returns (PyDict items) →
  assoc (lit "jsonrpc") items = Some (PyStr (lit "2.0")) →
  assoc (lit "method") items = Some method →
  (is_scalar method = true →
     handleJsonRpcRequest fuel request w = (Returns (error_response (-32601)), w)) ∧
  ((∃ l, method = PyList l) ∨ (∃ d, method = PyDict d) →
     ∃ text, handleJsonRpcRequest fuel request w = (Raises (Exception "TypeError" text), w)).
Proof.
  intros Hparse Hversion Hmethod. rewrite handleJsonRpcRequest_parsed, Hparse.
  rewrite (py_contains_Some _ _ _ Hversion), (py_getitem_Some _ _ _ Hversion).
  rewrite (py_contains_Some _ _ _ Hmethod), (py_getitem_Some _ _ _ Hmethod).
  run_M. rewrite py_eq_str_refl. split.
  - intros Hscalar. destruct method; try discriminate; reflexivity.
  - intros [[l ->]|[d ->]]; eexists; reflexivity.
Qed.

(** The answer to [getStats] depends on nothing in the request but its
    [jsonrpc] and [method] members: [params], [id] and any other member are
    ignored. *)
Theorem getStats_ignores_other_members (fuel : nat) (request request' : JsonRpcRequest.t)
        (w : world) (items items' : list (str * pyval)) :
  parse_request request = Returns (PyDict items) →
  parse_request request' = Returns (PyDict items') →
  assoc (lit "jsonrpc") items = Some (PyStr (lit "2.0")) →
  assoc (lit "jsonrpc") items' = Some (PyStr (lit "2.0")) →
  assoc (lit "method") items = Some (PyStr (lit "getStats")) →
  assoc (lit "method") items' = Some (PyStr (lit "getStats")) →
  handleJsonRpcRequest fuel request w = handleJsonRpcRequest fuel request' w.
Proof.
  intros Hparse Hparse' Hversion Hversion' Hmethod Hmethod'.
  rewrite (handleJsonRpcRequest_method fuel request w items (lit "getStats")) by done.
  rewrite (handleJsonRpcRequest_method fuel request' w items' (lit "getStats")) by done.
  pose proof (JRPC_MAP_getStats fuel) as Hlookup. unfold M in *. rewrite Hlookup.
  reflexivity.
Qed.

Lemma countMinorBlockHeaderStatsIn_world fuel sec func w :
  ∃ o, countMinorBlockHeaderStatsIn fuel sec func w = (o, World (S (ticks w)) (calls w)).
Proof. unfold countMinorBlockHeaderStatsIn. run_M. eexists. reflexivity. Qed.

Lemma countMinorBlockStatsIn_world fuel sec func w :
  ∃ o, countMinorBlockStatsIn fuel sec func w = (o, World (S (ticks w)) (calls w)).
Proof. unfold countMinorBlockStatsIn. run_M. eexists. reflexivity. Qed.

Lemma jrpcGetStats_world fuel params w :
  ∃ o k, (k ≤ 4)%nat ∧ jrpcGetStats fuel params w = (o, World (k + ticks w) (calls w)).
Proof.
  destruct w as [t c]. unfold jrpcGetStats. run_M. cbn [ticks calls].
  repeat (match goal with
          | |- context [match ?x with _ => _ end] =>
              lazymatch x with
              | context [match _ with _ => _ end] => fail
              | countMinorBlockHeaderStatsIn ?f ?s ?fn ?w0 =>
                  destruct (countMinorBlockHeaderStatsIn_world f s fn w0) as [? ->];
                  cbn [ticks calls]
              | countMinorBlockStatsIn ?f ?s ?fn ?w0 =>
                  destruct (countMinorBlockStatsIn_world f s fn w0) as [? ->];
                  cbn [ticks calls]
              | _ => destruct x
              end
          end).
  all: first [ eexists _, 0%nat; split; [lia|reflexivity]
             | eexists _, 1%nat; split; [lia|reflexivity]
             | eexists _, 2%nat; split; [lia|reflexivity]
             | eexists _, 3%nat; split; [lia|reflexivity]
             | eexists _, 4%nat; split; [lia|reflexivity] ].
Qed.

(** The JSON-RPC handler changes nothing in the state engine: it issues no
    enqueue or append call, whatever the request and however it ends, and it
    reads the clock at most four times. *)
Theorem handleJsonRpcRequest_only_reads (fuel : nat) (request : JsonRpcRequest.t) (w : world) :
  ∃ o k, (k ≤ 4)%nat ∧
    handleJsonRpcRequest fuel request w = (o, World (k + ticks w) (calls w)).
Proof.
  assert (∀ o : outcome JsonRpcResponse.t,
            ∃ o' k, (k ≤ 4)%nat ∧ (o, w) = (o', World (k + ticks w) (calls w))) as Hsame.
  { intros o. exists o, 0%nat. split; [lia|by destruct w]. }
  rewrite handleJsonRpcRequest_parsed.
  destruct (parse_request request) as [jrpcRequest|e|]; [|apply Hsame..].
  run_M.
  repeat (match goal with
          | |- context [match ?x with _ => _ end] =>
              lazymatch x with
              | context [match _ with _ => _ end] => fail
              | ?handler ?params w =>
                  match goal with
                  | Hget : py_table_getitem _ _ = Returns handler |- _ =>
                      apply py_table_getitem_Returns in Hget as (name & -> & Hlookup);
                      apply JRPC_MAP_lookup in Hlookup as [-> ->];
                      destruct (jrpcGetStats_world fuel params w) as (o & k & Hk & ->)
                  end
              | _ => destruct x eqn:?
              end
          end; try apply Hsame).
  all: eauto.
Qed.

(** The handler lets an exception out in two situations only, and it is a
    [TypeError] raised before anything was read or called: the payload parsed
    to something that is not a JSON object, or the request object's [method]
    is an array or an object. A request object whose [method] is a string or
    a scalar is always answered (or the stats walk does not end). *)
Theorem handleJsonRpcRequest_raises_TypeError_only (fuel : nat) (request : JsonRpcRequest.t)
        (w w' : world) (e : exn) :
  handleJsonRpcRequest fuel request w = (Raises e, w') →
  exn_class e = "TypeError" ∧ w' = w ∧
  ∃ v, parse_request request = Returns v ∧
    ∀ items, v = PyDict items →
      ∃ method, assoc (lit "method") items = Some method ∧
        ((∃ l, method = PyList l) ∨ (∃ d, method = PyDict d)).
Proof.
  rewrite handleJsonRpcRequest_parsed.
  destruct (parse_request request) as [v|e0|] eqn:Hparse; [|discriminate..].
  destruct v as [ | b | z | num den | s | l | items ].
  1-4: intros [= <- <-]; (split; [done|]); (split; [done|]); eexists; (split; [done|]);
       intros items; discriminate.
  - cbn [py_contains]. run_M. destruct (is_substr _ s); [|discriminate].
    intros [= <- <-]. split; [done|]. split; [done|]. eexists. split; [done|].
    intros items; discriminate.
  - cbn [py_contains]. run_M. destruct (existsb _ l); [|discriminate].
    intros [= <- <-]. split; [done|]. split; [done|]. eexists. split; [done|].
    intros items; discriminate.
  - destruct (assoc (lit "jsonrpc") items) as [version|] eqn:Hversion.
    2: { rewrite (py_contains_None _ _ Hversion). run_M. discriminate. }
    rewrite (py_contains_Some _ _ _ Hversion), (py_getitem_Some _ _ _ Hversion). run_M.
    destruct (py_eq_str version (lit "2.0")); [|discriminate].
    destruct (assoc (lit "method") items) as [method|] eqn:Hmethod.
    2: { rewrite (py_contains_None _ _ Hmethod). discriminate. }
    rewrite (py_contains_Some _ _ _ Hmethod), (py_getitem_Some _ _ _ Hmethod).
    destruct method as [ | b | z | num den | name | l | d ]; try discriminate.
    + unfold py_in_table. destruct (bool_decide _); [|discriminate].
      destruct (assoc (lit "params") items) as [params|] eqn:Hparams.
      * rewrite (py_contains_Some _ _ _ Hparams), (py_getitem_Some _ _ _ Hparams).
        destruct (py_table_getitem _ _) as [handler| |]; try discriminate.
        destruct (handler params w) as [[] ?]; discriminate.
      * rewrite (py_contains_None _ _ Hparams).
        destruct (py_table_getitem _ _) as [handler| |]; try discriminate.
        destruct (handler PyNone w) as [[] ?]; discriminate.
    + intros [= <- <-]. split; [done|]. split; [done|]. eexists. split; [done|].
      intros ? [= <-]. eauto.
    + intros [= <- <-]. split; [done|]. split; [done|]. eexists. split; [done|].
      intros ? [= <-]. eauto.
Qed.
End JsonRpcFacts.

Lemma jrpcError_echoes_every_id_witness :
  @jrpcError (toy_python toy_table) (-32600) (PyInt 0)
  = Returns (JsonRpcResponse.new
      (ascii_bytes (json_lit "{'jsonrpc': '2.0', 'error': {'code': -32600}, 'id': 0}"))).
Proof.
  exact (eq_trans (@jrpcError_echoes_every_id (toy_python toy_table) (-32600) (PyInt 0)
                     ltac:(discriminate)) eq_refl).
Defined.

Lemma response_payload_is_ascii_witness :
  Forall (λ b, Z_of_byte b < 128) (JsonRpcResponse.jrpcResponse (error_response (-32601))).
Proof.
  apply (@response_payload_is_ascii _ toy_chain_node (toy_python toy_table) 3
           (toy_request text_with_id) w0 w0).
  vm_compute. reflexivity.
Defined.

Lemma scalar_request_raises_witness :
  ∃ text, @handleJsonRpcRequest _ toy_chain_node (toy_python toy_table_more) 3
            (toy_request text_number) w0
          = (Raises (Exception "TypeError" text), w0).
Proof.
  apply (@scalar_request_raises _ toy_chain_node (toy_python toy_table_more) 3
           (toy_request text_number) w0 (PyInt 5)).
  - vm_compute. reflexivity.
  - reflexivity.
Defined.

Lemma array_or_string_request_witness :
  (∃ text, @handleJsonRpcRequest _ toy_chain_node (toy_python toy_table_more) 3
             (toy_request text_array) w0
           = (Raises (Exception "TypeError" text), w0)) ∧
  @handleJsonRpcRequest _ toy_chain_node (toy_python toy_table_more) 3
     (toy_request text_string) w0
  = (Returns (error_response (-32600)), w0).
Proof.
  split.
  - exact (proj1 (@array_or_string_request _ toy_chain_node (toy_python toy_table_more) 3
             (toy_request text_array) w0)
             [PyStr (lit "jsonrpc"); PyStr (lit "2.0")] ltac:(vm_compute; reflexivity)).
  - exact (proj2 (@array_or_string_request _ toy_chain_node (toy_python toy_table_more) 3
             (toy_request text_string) w0)
             (lit "ping") ltac:(vm_compute; reflexivity)).
Defined.

Lemma method_that_is_not_a_name_witness :
  @handleJsonRpcRequest _ toy_chain_node (toy_python toy_table_more) 3
     (toy_request text_method_number) w0
  = (Returns (error_response (-32601)), w0) ∧
  (∃ text, @handleJsonRpcRequest _ toy_chain_node (toy_python toy_table_more) 3
             (toy_request text_method_array) w0
           = (Raises (Exception "TypeError" text), w0)).
Proof.
  split.
  - apply (proj1 (@method_that_is_not_a_name _ toy_chain_node (toy_python toy_table_more) 3
             (toy_request text_method_number) w0
             [(lit "jsonrpc", PyStr (lit "2.0")); (lit "method", PyInt 1)] (PyInt 1)
             ltac:(vm_compute; reflexivity) eq_refl eq_refl)).
    reflexivity.
  - apply (proj2 (@method_that_is_not_a_name _ toy_chain_node (toy_python toy_table_more) 3
             (toy_request text_method_array) w0
             [(lit "jsonrpc", PyStr (lit "2.0"));
              (lit "method", PyList [PyStr (lit "getStats")])]
             (PyList [PyStr (lit "getStats")])
             ltac:(vm_compute; reflexivity) eq_refl eq_refl)).
    left. by eexists.
Defined.

Lemma getStats_ignores_other_members_witness :
  @handleJsonRpcRequest _ toy_chain_node (toy_python toy_table_more) 3
     (toy_request text_getStats) w0
  = @handleJsonRpcRequest _ toy_chain_node (toy_python toy_table_more) 3
      (toy_request text_getStats_params) w0.
Proof.
  apply (@getStats_ignores_other_members _ toy_chain_node (toy_python toy_table_more) 3
           (toy_request text_getStats) (toy_request text_getStats_params) w0
           [(lit "jsonrpc", PyStr (lit "2.0")); (lit "method", PyStr (lit "getStats"))]
           [(lit "jsonrpc", PyStr (lit "2.0")); (lit "id", PyInt 7);
            (lit "method", PyStr (lit "getStats")); (lit "params", PyList [PyInt 1])]).
  - vm_compute. reflexivity.
  - vm_compute. reflexivity.
  - reflexivity.
  - reflexivity.
  - reflexivity.
  - reflexivity.
Defined.

Lemma handleJsonRpcRequest_raises_TypeError_only_witness :
  exn_class (Exception "TypeError" (lit "unhashable type: 'list'")) = "TypeError" ∧
  w0 = w0 ∧
  ∃ v, @parse_request (toy_python toy_table_more) (toy_request text_method_array) = Returns v ∧
    ∀ items, v = PyDict items →
      ∃ method, assoc (lit "method") items = Some method ∧
        ((∃ l, method = PyList l) ∨ (∃ d, method = PyDict d)).
Proof.
  apply (@handleJsonRpcRequest_raises_TypeError_only _ toy_chain_node
           (toy_python toy_table_more) 3 (toy_request text_method_array) w0 w0).
  vm_compute. reflexivity.
Defined.

(** ** More on the stats aggregator *)

Lemma range_nonpos n : n ≤ 0 → range n = [].
Proof. intros Hn. unfold range. by replace (Z.to_nat n) with 0%nat by lia. Qed.

Lemma sum_Z_fmap_le {A} (f g : A → Z) (l : list A) :
  (∀ x, x ∈ l → f x ≤ g x) → sum_Z (f <$> l) ≤ sum_Z (g <$> l).
Proof.
  induction l as [|x l IH]; intros Hfg; cbn [fmap list_fmap sum_Z]; [done|].
  pose proof (Hfg x ltac:(set_solver)).
  change (list_fmap A Z f l) with (f <$> l). change (list_fmap A Z g l) with (g <$> l).
  specialize (IH ltac:(set_solver)). lia.
Qed.

Lemma sum_Z_nonneg (l : list Z) : Forall (λ x, 0 ≤ x) l → 0 ≤ sum_Z l.
Proof. induction 1; cbn [sum_Z]; lia. Qed.

Lemma sum_Z_app (l k : list Z) : sum_Z (l ++ k) = sum_Z l + sum_Z k.
Proof. induction l as [|x l IH]; cbn [app sum_Z]; lia. Qed.

Lemma take_while_prefix {A} (p q : A → bool) (l : list A) :
  (∀ x, p x = true → q x = true) → ∃ k, take_while q l = take_while p l ++ k.
Proof.
  intros Hpq. induction l as [|x l [k IH]]; cbn; [by exists []|].
  destruct (p x) eqn:Hp.
  - rewrite (Hpq x Hp), IH. by exists k.
  - eexists. reflexivity.
Qed.

Lemma take_while_sublist_filter {A} (p : A → bool) (l : list A) :
  (length (take_while p l) ≤ length (List.filter p l))%nat.
Proof.
  induction l as [|x l IH]; cbn; [done|]. destruct (p x); cbn; lia.
Qed.

Lemma in_window_wider now now' sec sec' header :
  (now' - inject_Z sec' <= now - inject_Z sec)%Q →
  in_window now sec header = true → in_window now' sec' header = true.
Proof.
  unfold in_window. rewrite !Qle_bool_iff. intros Hle Hin. by eapply Qle_trans.
Qed.

Lemma in_window_older now sec newer older :
  MinorBlockHeader.createTime older ≤ MinorBlockHeader.createTime newer →
  in_window now sec older = true → in_window now sec newer = true.
Proof.
  unfold in_window. rewrite !Qle_bool_iff. intros Hle Hin.
  eapply Qle_trans; [exact Hin|]. by rewrite <- Zle_Qle.
Qed.

Lemma take_while_filter_sorted now sec (l : list MinorBlockHeader.t) :
  timestamps_descend l →
  take_while (in_window now sec) l = List.filter (in_window now sec) l.
Proof.
  induction l as [|x l IH]; cbn; [done|]. intros [Hall Hsorted].
  destruct (in_window now sec x) eqn:Hx; [by rewrite IH|].
  symmetry. clear IH Hsorted. induction Hall as [|y l Hy _ IHl]; cbn; [done|].
  destruct (in_window now sec y) eqn:Hin; [|exact IHl].
  by rewrite (in_window_older _ _ _ _ Hy Hin) in Hx.
Qed.

Section WindowFacts.
Context `{Node}.

Lemma window_headers_wider now now' sec sec' shardId :
  (now' - inject_Z sec' <= now - inject_Z sec)%Q →
  ∃ k, window_headers now' sec' shardId = window_headers now sec shardId ++ k.
Proof.
  intros Hle. unfold window_headers. apply take_while_prefix.
  intros header. by apply in_window_wider.
Qed.

Lemma window_sum_le now now' sec sec' (func : MinorBlockHeader.t → Z) shardId :
  (∀ h, 0 ≤ func h) →
  (now' - inject_Z sec' <= now - inject_Z sec)%Q →
  sum_Z (func <$> window_headers now sec shardId)
  ≤ sum_Z (func <$> window_headers now' sec' shardId).
Proof.
  intros Hfunc Hle. destruct (window_headers_wider now now' sec sec' shardId Hle) as [k ->].
  rewrite fmap_app, sum_Z_app.
  assert (0 ≤ sum_Z (func <$> k)); [|lia].
  apply sum_Z_nonneg, Forall_fmap, Forall_forall. intros h _. apply Hfunc.
Qed.

Lemma window_count_le now now' sec sec' (func : MinorBlockHeader.t → Z) :
  (∀ h, 0 ≤ func h) →
  (now' - inject_Z sec' <= now - inject_Z sec)%Q →
  0 ≤ sum_Z ((λ shardId, sum_Z (func <$> window_headers now sec shardId))
               <$> range getShardSize)
    ≤ sum_Z ((λ shardId, sum_Z (func <$> window_headers now' sec' shardId))
               <$> range getShardSize).
Proof.
  intros Hfunc Hle. split.
  - apply sum_Z_nonneg, Forall_fmap, Forall_forall. intros shardId _. cbn.
    apply sum_Z_nonneg, Forall_fmap, Forall_forall. intros h _. apply Hfunc.
  - apply sum_Z_fmap_le. intros shardId _. by apply window_sum_le.
Qed.

Lemma later_reading_wider (now now' : Q) :
  (now' <= now + 240)%Q → (now' - inject_Z 300 <= now - inject_Z 60)%Q.
Proof.
  intros Hle. unfold Qminus.
  apply Qle_trans with (now + 240 + - inject_Z 300)%Q.
  - apply Qplus_le_l. exact Hle.
  - rewrite <- Qplus_assoc. apply Qplus_le_r. done.
Qed.

(** The tx-count pass: the sum, over the headers the walk counts, of the
    number of transactions of the block the store holds under the header's
    hash; the clock is read once. *)
Theorem countMinorBlockStatsIn_sums_transactions (fuel : nat) (sec : Z) (w : world) :
  chains_well_formed → fuel_covers fuel →
  countMinorBlockStatsIn fuel sec (λ b, Z.of_nat (length (txList b))) w
  = (Returns (sum_Z ((λ shardId,
                sum_Z ((λ h, Z.of_nat (length (txList
                               (getMinorBlockByHash (MinorBlockHeader.getHash h)))))
                         <$> window_headers (time_time (ticks w)) sec shardId))
                       <$> range getShardSize)),
     World (S (ticks w)) (calls w)).
Proof.
  intros Hwf Hfuel.
  exact (countMinorBlockStatsIn_spec fuel sec (λ b, Z.of_nat (length (txList b))) w Hwf Hfuel).
Qed.

(** A pass whose threshold [now' - sec'] is not later than the threshold
    [now - sec] of another pass counts at least as much, for block counts and
    for transaction counts. *)
Theorem counts_grow_with_the_window (fuel : nat) (sec sec' : Z) (w w' : world) :
  chains_well_formed → fuel_covers fuel →
  (time_time (ticks w') - inject_Z sec' <= time_time (ticks w) - inject_Z sec)%Q →
  (∃ a b,
     (countMinorBlockHeaderStatsIn fuel sec (λ h, 1) w).1 = Returns a ∧
     (countMinorBlockHeaderStatsIn fuel sec' (λ h, 1) w').1 = Returns b ∧
     0 ≤ a ≤ b) ∧
  (∃ a b,
     (countMinorBlockStatsIn fuel sec (λ b, Z.of_nat (length (txList b))) w).1 = Returns a ∧
     (countMinorBlockStatsIn fuel sec' (λ b, Z.of_nat (length (txList b))) w').1 = Returns b ∧
     0 ≤ a ≤ b).
Proof.
  intros Hwf Hfuel Hle. split.
  - rewrite !countMinorBlockHeaderStatsIn_spec by done. eexists _, _.
    split; [reflexivity|]. split; [reflexivity|]. split.
    + apply sum_Z_nonneg, Forall_fmap, Forall_forall. intros shardId _. cbn.
      apply sum_Z_nonneg, Forall_fmap, Forall_forall. by intros.
    + apply sum_Z_fmap_le. intros shardId _. by apply window_sum_le.
  - rewrite !countMinorBlockStatsIn_spec by done. eexists _, _.
    split; [reflexivity|]. split; [reflexivity|]. split.
    + apply sum_Z_nonneg, Forall_fmap, Forall_forall. intros shardId _. cbn.
      apply sum_Z_nonneg, Forall_fmap, Forall_forall. intros h _. cbn. lia.
    + apply sum_Z_fmap_le. intros shardId _. apply window_sum_le; [|done]. intros h. lia.
Qed.

(** The block count never exceeds the number of headers of the chains that
    lie in the window, and equals it when no header is newer than one above
    it in its chain. *)
Theorem block_count_and_window_population (fuel : nat) (sec : Z) (w : world) :
  chains_well_formed → fuel_covers fuel →
  ∃ count,
    countMinorBlockHeaderStatsIn fuel sec (λ h, 1) w
    = (Returns count, World (S (ticks w)) (calls w)) ∧
    count ≤ sum_Z ((λ shardId,
               Z.of_nat (length (List.filter (in_window (time_time (ticks w)) sec)
                                              (chain_back shardId))))
                     <$> range getShardSize) ∧
    ((∀ shardId, 0 ≤ shardId < getShardSize → timestamps_descend (chain_back shardId)) →
     count = sum_Z ((λ shardId,
               Z.of_nat (length (List.filter (in_window (time_time (ticks w)) sec)
                                              (chain_back shardId))))
                     <$> range getShardSize)).
Proof.
  intros Hwf Hfuel. rewrite countMinorBlockHeaderStatsIn_spec by done.
  eexists. split; [reflexivity|]. split.
  - apply sum_Z_fmap_le. intros shardId _. cbv beta. rewrite sum_Z_ones.
    unfold window_headers. pose proof (take_while_sublist_filter
      (in_window (time_time (ticks w)) sec) (chain_back shardId)). lia.
  - intros Hsorted. f_equal. apply list_fmap_ext. intros i shardId Hshard.
    rewrite sum_Z_ones. unfold window_headers.
    rewrite take_while_filter_sorted; [done|].
    apply Hsorted, elem_of_range. by eapply list_elem_of_lookup_2.
Qed.

(** With no shard (a shard size of zero or less) both passes return 0 after
    reading the clock once, whatever the fuel and the counting function. *)
Theorem counts_without_shards (fuel : nat) (sec : Z) (w : world)
        (func : MinorBlockHeader.t → Z) (func' : MinorBlock → Z) :
  getShardSize ≤ 0 →
  countMinorBlockHeaderStatsIn fuel sec func w = (Returns 0, World (S (ticks w)) (calls w)) ∧
  countMinorBlockStatsIn fuel sec func' w = (Returns 0, World (S (ticks w)) (calls w)).
Proof.
  intros Hsize. unfold countMinorBlockHeaderStatsIn, countMinorBlockStatsIn.
  rewrite (range_nonpos _ Hsize). split; reflexivity.
Qed.

(** When the clock does not jump forward by more than 240 seconds between
    two readings, the stats object's 60-second counts do not exceed its
    300-second counts, for blocks and for transactions, and none is
    negative. *)
Theorem getStats_short_window_within_long (fuel : nat) (params : pyval) (w : world) :
  1 ≤ getShardSize → chains_well_formed → fuel_covers fuel →
  (∀ n, time_time (S n) <= time_time n + 240)%Q →
  ∃ stats b60 b300 t60 t300,
    jrpcGetStats fuel params w = (Returns (PyDict stats), World (4 + ticks w) (calls w)) ∧
    assoc (lit "minorBlocksIn60s") stats = Some (PyInt b60) ∧
    assoc (lit "minorBlocksIn300s") stats = Some (PyInt b300) ∧
    assoc (lit "transactionsIn60s") stats = Some (PyInt t60) ∧
    assoc (lit "transactionsIn300s") stats = Some (PyInt t300) ∧
    0 ≤ b60 ≤ b300 ∧ 0 ≤ t60 ≤ t300.
Proof.
  intros Hsize Hwf Hfuel Hclock. unfold jrpcGetStats.
  destruct (statistics_mean_returns
              ((λ shardId, MinorBlockHeader.height (getMinorBlockTip shardId))
                 <$> range getShardSize)) as [avgHeight HavgHeight];
    [by apply range_nonempty|].
  destruct (statistics_mean_returns
              ((λ shardId, MinorBlockHeader.difficulty (getMinorBlockTip shardId))
                 <$> range getShardSize)) as [avgDifficulty HavgDifficulty];
    [by apply range_nonempty|].
  rewrite HavgHeight, HavgDifficulty. run_M.
  rewrite countMinorBlockHeaderStatsIn_spec by done. cbv beta iota.
  rewrite countMinorBlockHeaderStatsIn_spec by done. cbv beta iota.
  rewrite countMinorBlockStatsIn_spec by done. cbv beta iota.
  rewrite countMinorBlockStatsIn_spec by done. cbv beta iota.
  cbn [ticks calls].
  eexists _, _, _, _, _. split; [reflexivity|].
  do 4 (split; [reflexivity|]). split.
  - apply window_count_le; [done|]. apply later_reading_wider, Hclock.
  - apply (window_count_le _ _ _ _
             (λ h, Z.of_nat (length (txList (getMinorBlockByHash (MinorBlockHeader.getHash h)))))).
    + intros h. lia.
    + apply later_reading_wider, Hclock.
Qed.
End WindowFacts.

Section WalkCost.
Context `{Node}.

Lemma walk_headers_window now sec func shardId :
  ∀ n fuel header metric,
    (∀ h, 0 ≤ h < Z.of_nat n →
       MinorBlockHeader.height (getMinorBlockHeaderByHeight shardId h) = h) →
    MinorBlockHeader.height header = Z.of_nat n →
    (length (take_while (in_window now sec)
               (header :: (getMinorBlockHeaderByHeight shardId <$> rev (range (Z.of_nat n)))))
     < fuel)%nat →
    walk_headers fuel now sec func shardId header metric
    = Returns (metric + sum_Z (func <$> take_while (in_window now sec)
                 (header :: (getMinorBlockHeaderByHeight shardId <$> rev (range (Z.of_nat n)))))).
Proof.
  induction n as [|n IH]; intros fuel header metric Hwf Hheight Hfuel;
    (destruct fuel as [|fuel]; [lia|]); cbn [walk_headers take_while] in Hfuel |- *;
    fold (in_window now sec header) in Hfuel |- *; destruct (in_window now sec header);
    cbn [fmap list_fmap sum_Z length] in Hfuel |- *; try (f_equal; lia).
  - rewrite decide_True by (rewrite Hheight; done).
    change (range (Z.of_nat 0)) with (@nil Z).
    cbn [rev fmap list_fmap take_while sum_Z]. f_equal. lia.
  - rewrite decide_False by lia.
    rewrite range_S, rev_app_distr in Hfuel |- *. cbn [rev app fmap list_fmap] in Hfuel |- *.
    rewrite Hheight. replace (Z.of_nat (S n) - 1) with (Z.of_nat n) by lia.
    rewrite IH; [|intros h Hh; apply Hwf; lia|apply Hwf; lia|lia].
    f_equal. cbn [fmap list_fmap sum_Z]. lia.
Qed.

Lemma walk_headers_shard_window fuel now sec func shardId metric :
  chains_well_formed → 0 ≤ shardId < getShardSize →
  (length (window_headers now sec shardId) < fuel)%nat →
  walk_headers fuel now sec func shardId (getMinorBlockTip shardId) metric
  = Returns (metric + sum_Z (func <$> window_headers now sec shardId)).
Proof.
  intros Hwf Hshard Hfuel. destruct (Hwf shardId Hshard) as [Htip Hh].
  unfold window_headers, chain_back in Hfuel |- *.
  rewrite (walk_headers_window now sec func shardId
             (Z.to_nat (MinorBlockHeader.height (getMinorBlockTip shardId)))).
  - by rewrite Z2Nat.id.
  - intros h Hlt. apply Hh. lia.
  - lia.
  - by rewrite Z2Nat.id.
Qed.

(** The cost of a pass is the window, not the chain: fuel for one more test
    of the loop condition than the headers the pass counts in a shard is
    enough, however long the chain below them is. *)
Theorem pass_cost_is_the_window (fuel : nat) (sec : Z) (w : world)
        (func : MinorBlockHeader.t → Z) (func' : MinorBlock → Z) :
  chains_well_formed →
  (∀ shardId, 0 ≤ shardId < getShardSize →
     (length (window_headers (time_time (ticks w)) sec shardId) < fuel)%nat) →
  countMinorBlockHeaderStatsIn fuel sec func w
  = (Returns (sum_Z ((λ shardId,
                sum_Z (func <$> window_headers (time_time (ticks w)) sec shardId))
                       <$> range getShardSize)),
     World (S (ticks w)) (calls w)) ∧
  countMinorBlockStatsIn fuel sec func' w
  = (Returns (sum_Z ((λ shardId,
                sum_Z ((λ h, func' (getMinorBlockByHash (MinorBlockHeader.getHash h)))
                         <$> window_headers (time_time (ticks w)) sec shardId))
                       <$> range getShardSize)),
     World (S (ticks w)) (calls w)).
Proof.
  intros Hwf Hfuel. unfold countMinorBlockHeaderStatsIn, countMinorBlockStatsIn. run_M. split.
  - rewrite (foldM_sum _ (λ shardId,
      sum_Z (func <$> window_headers (time_time (ticks w)) sec shardId))).
    + by rewrite Z.add_0_l.
    + intros acc shardId Hshard%elem_of_range. apply walk_headers_shard_window; auto.
  - rewrite (foldM_sum _ (λ shardId,
      sum_Z ((λ h, func' (getMinorBlockByHash (MinorBlockHeader.getHash h)))
               <$> window_headers (time_time (ticks w)) sec shardId))).
    + by rewrite Z.add_0_l.
    + intros acc shardId Hshard%elem_of_range.
      rewrite walk_blocks_as_headers. apply walk_headers_shard_window; auto.
Qed.
End WalkCost.

Lemma toy_busy_well_formed : @chains_well_formed _ toy_busy_node.
Proof.
  intros shardId Hshard. change (0 ≤ shardId < 1) in Hshard.
  assert (shardId = 0) as -> by lia.
  split; [done|]. intros h Hh. change (0 ≤ h < 2) in Hh.
  assert (h = 0 ∨ h = 1) as [-> | ->] by lia; reflexivity.
Qed.

Lemma toy_busy_fuel : @fuel_covers _ toy_busy_node 3.
Proof.
  intros shardId Hshard. change (0 ≤ shardId < 1) in Hshard.
  assert (shardId = 0) as -> by lia. done.
Qed.

Lemma countMinorBlockStatsIn_sums_transactions_witness :
  @countMinorBlockStatsIn _ toy_busy_node 3 300 (λ b, Z.of_nat (length (txList b))) w0
  = (Returns 5, World 1 []).
Proof.
  exact (eq_trans (@countMinorBlockStatsIn_sums_transactions _ toy_busy_node 3 300 w0
                     toy_busy_well_formed toy_busy_fuel) eq_refl).
Defined.

Lemma counts_grow_with_the_window_witness :
  (∃ a b,
     (@countMinorBlockHeaderStatsIn _ toy_busy_node 3 60 (λ h, 1) w0).1 = Returns a ∧
     (@countMinorBlockHeaderStatsIn _ toy_busy_node 3 300 (λ h, 1) w0).1 = Returns b ∧
     0 ≤ a ≤ b) ∧
  (∃ a b,
     (@countMinorBlockStatsIn _ toy_busy_node 3 60 (λ b, Z.of_nat (length (txList b))) w0).1
     = Returns a ∧
     (@countMinorBlockStatsIn _ toy_busy_node 3 300 (λ b, Z.of_nat (length (txList b))) w0).1
     = Returns b ∧
     0 ≤ a ≤ b).
Proof.
  apply (@counts_grow_with_the_window _ toy_busy_node 3 60 300 w0 w0).
  - exact toy_busy_well_formed.
  - exact toy_busy_fuel.
  - by vm_compute.
Defined.

Lemma block_count_and_window_population_witness :
  ∃ count,
    @countMinorBlockHeaderStatsIn _ toy_busy_node 3 300 (λ h, 1) w0
    = (Returns count, World 1 []) ∧
    count ≤ 2 ∧
    ((∀ shardId, 0 ≤ shardId < 1 → timestamps_descend (@chain_back _ toy_busy_node shardId)) →
     count = 2).
Proof.
  exact (@block_count_and_window_population _ toy_busy_node 3 300 w0
           toy_busy_well_formed toy_busy_fuel).
Defined.

Lemma counts_without_shards_witness :
  @countMinorBlockHeaderStatsIn _ toy_empty_node 3 60 (λ h, 1) w0 = (Returns 0, World 1 []) ∧
  @countMinorBlockStatsIn _ toy_empty_node 3 60 (λ b, Z.of_nat (length (txList b))) w0
  = (Returns 0, World 1 []).
Proof.
  apply (@counts_without_shards _ toy_empty_node 3 60 w0). done.
Defined.

Lemma getStats_short_window_within_long_witness :
  ∃ stats b60 b300 t60 t300,
    @jrpcGetStats _ toy_busy_node 3 PyNone w0 = (Returns (PyDict stats), World 4 []) ∧
    assoc (lit "minorBlocksIn60s") stats = Some (PyInt b60) ∧
    assoc (lit "minorBlocksIn300s") stats = Some (PyInt b300) ∧
    assoc (lit "transactionsIn60s") stats = Some (PyInt t60) ∧
    assoc (lit "transactionsIn300s") stats = Some (PyInt t300) ∧
    0 ≤ b60 ≤ b300 ∧ 0 ≤ t60 ≤ t300.
Proof.
  apply (@getStats_short_window_within_long _ toy_busy_node 3 PyNone w0).
  - done.
  - exact toy_busy_well_formed.
  - exact toy_busy_fuel.
  - intros n. by vm_compute.
Defined.

Lemma pass_cost_is_the_window_witness :
  @countMinorBlockHeaderStatsIn _ toy_busy_node 2 60 (λ h, 1) w0 = (Returns 1, World 1 []) ∧
  @countMinorBlockStatsIn _ toy_busy_node 2 60 (λ b, Z.of_nat (length (txList b))) w0
  = (Returns 3, World 1 []).
Proof.
  apply (@pass_cost_is_the_window _ toy_busy_node 2 60 w0 (λ h, 1)
           (λ b, Z.of_nat (length (txList b))) toy_busy_well_formed).
  intros shardId Hshard. change (0 ≤ shardId < 1) in Hshard.
  assert (shardId = 0) as -> by lia. vm_compute. lia.
Defined.

(** ** Cluster configuration *)

Lemma lit_inj s t : lit s = lit t → s = t.
Proof.
  unfold lit. intros Heq.
  assert (list_ascii_of_string s = list_ascii_of_string t) as Hl.
  { apply (list_fmap_eq_inj N_of_ascii); [|exact Heq].
    intros a b Hab. by rewrite <- (ascii_N_embedding a), <- (ascii_N_embedding b), Hab. }
  by rewrite <- (string_of_list_ascii_of_string s), <- (string_of_list_ascii_of_string t), Hl.
Qed.

Lemma to_int_not_nil z : Z.to_int z ≠ Decimal.Pos Decimal.Nil ∧ Z.to_int z ≠ Decimal.Neg Decimal.Nil.
Proof.
  destruct z as [|p|p]; cbn; split; try discriminate.
  - intros [= Hp]. by apply Unsigned.to_uint_nonnil in Hp.
  - intros [= Hp]. by apply Unsigned.to_uint_nonnil in Hp.
Qed.

Lemma int_of_str_of_Z z :
  NilZero.int_of_string (NilZero.string_of_int (Z.to_int z)) = Some (Z.to_int z).
Proof. destruct (to_int_not_nil z). by apply NilZero.isi. Qed.

Lemma str_of_Z_inj z z' : str_of_Z z = str_of_Z z' → z = z'.
Proof.
  unfold str_of_Z. intros Heq%lit_inj.
  pose proof (int_of_str_of_Z z) as Hz. rewrite Heq, int_of_str_of_Z in Hz.
  injection Hz as Hz. symmetry. by apply DecimalZ.to_int_inj.
Qed.

Lemma str_of_Z_not_m z : str_of_Z z ≠ lit "m".
Proof.
  unfold str_of_Z. intros Heq%lit_inj.
  pose proof (int_of_str_of_Z z) as Hz. rewrite Heq in Hz. discriminate Hz.
Qed.

Lemma lor_pow2 k i : 0 ≤ k → 0 ≤ i < 2 ^ k → Z.lor i (2 ^ k) = 2 ^ k + i.
Proof.
  intros Hk Hi. pose proof (Z.add_lor_land i (2 ^ k)) as Hadd.
  assert (Z.land i (2 ^ k) = 0) as Hland; [|lia].
  apply Z.bits_inj'. intros n Hn. rewrite Z.land_spec, Z.bits_0, Z.pow2_bits_eqb by done.
  destruct (Z.eqb_spec k n) as [<-|]; [|apply andb_false_r].
  rewrite andb_true_r. apply Z.testbit_false; [done|].
  by rewrite Z.div_small.
Qed.

Lemma range_length n : length (range n) = Z.to_nat n.
Proof. unfold range. by rewrite length_fmap, length_seq. Qed.

Lemma range_NoDup n : NoDup (range n).
Proof.
  unfold range. apply (NoDup_fmap_2 _). apply NoDup_seq.
Qed.

Lemma create_cluster_config_made is_p2 slaveCount ip p2pPort clusterPortStart dbPrefix :
  create_cluster_config is_p2 slaveCount ip p2pPort clusterPortStart dbPrefix ≠ PyNone →
  0 < slaveCount ∧ is_p2 slaveCount = true ∧
  config_master (create_cluster_config is_p2 slaveCount ip p2pPort clusterPortStart dbPrefix)
  = Some (PyDict [ (lit "ip", ip);
                   (lit "port", PyInt clusterPortStart);
                   (lit "db_path", PyStr (dbPrefix ++ lit "m"));
                   (lit "server_port", p2pPort) ]) ∧
  config_slaves (create_cluster_config is_p2 slaveCount ip p2pPort clusterPortStart dbPrefix)
  = (λ i, PyDict [ (lit "id", PyStr (lit "S" ++ str_of_Z i));
                   (lit "ip", ip);
                   (lit "port", PyInt (clusterPortStart + i + 1));
                   (lit "shard_masks", PyList [PyInt (Z.lor i slaveCount)]);
                   (lit "db_path", PyStr (dbPrefix ++ str_of_Z i)) ]) <$> range slaveCount.
Proof.
  unfold create_cluster_config.
  destruct (bool_decide (slaveCount ≤ 0)) eqn:Hcount; cbn [orb]; [done|].
  apply bool_decide_eq_false in Hcount.
  destruct (is_p2 slaveCount) eqn:Hp2; cbn [negb]; [|done].
  intros _. split; [lia|]. split; [done|]. split; reflexivity.
Qed.

(** A configuration is refused exactly for a slave count that is not
    positive or fails [is_p2]. One that is made has one entry per slave, and
    the master and the slaves are given the [slaveCount + 1] consecutive ports
    from [clusterPortStart] on, the master first: no two entries share a
    port. *)
Theorem create_cluster_config_ports (is_p2 : Z → bool) (slaveCount : Z) (ip p2pPort : pyval)
        (clusterPortStart : Z) (dbPrefix : str) :
  (create_cluster_config is_p2 slaveCount ip p2pPort clusterPortStart dbPrefix = PyNone
   ↔ slaveCount ≤ 0 ∨ is_p2 slaveCount = false) ∧
  (∀ config,
     create_cluster_config is_p2 slaveCount ip p2pPort clusterPortStart dbPrefix = config →
     config ≠ PyNone →
     ∃ master,
       config_master config = Some master ∧
       length (config_slaves config) = Z.to_nat slaveCount ∧
       member "port" <$> (master :: config_slaves config)
       = (λ i, Some (PyInt (clusterPortStart + i))) <$> range (slaveCount + 1) ∧
       NoDup (member "port" <$> (master :: config_slaves config))).
Proof.
  split.
  - unfold create_cluster_config.
    destruct (bool_decide (slaveCount ≤ 0)) eqn:Hcount; cbn [orb].
    { apply bool_decide_eq_true in Hcount. tauto. }
    apply bool_decide_eq_false in Hcount.
    destruct (is_p2 slaveCount); cbn [negb]; [|tauto].
    split; [done|]. intros [?|?]; [lia|done].
  - intros config <- Hmade.
    apply create_cluster_config_made in Hmade as (Hcount & Hp2 & -> & ->).
    eexists. split; [reflexivity|].
    split; [by rewrite length_fmap, range_length|].
    match goal with |- ?ports = ?consecutive ∧ _ =>
      assert (ports = consecutive) as Hports end.
    { replace (slaveCount + 1) with (Z.of_nat (S (Z.to_nat slaveCount))) by lia.
      unfold range. rewrite !Nat2Z.id. cbn [seq fmap list_fmap].
      f_equal; [by rewrite Z.add_0_r|].
      change (list_fmap ?A ?B ?f ?l) with (f <$> l).
      rewrite <- seq_shift, <- !list_fmap_compose.
      apply list_fmap_ext. intros _ i _. cbn. do 2 f_equal. lia. }
    split; [exact Hports|].
    rewrite Hports. apply NoDup_fmap_2; [|apply range_NoDup].
    intros a b [= Hab]. lia.
Qed.

(** For a slave count [2 ^ k] that [is_p2] accepts, slave [i] is given the
    one shard mask [2 ^ k + i]: bit [k] set above the [k] bits of [i]. The
    masks are [2 ^ k], ..., [2 ^ (k + 1) - 1] in order, no two alike. *)
Theorem create_cluster_config_masks (is_p2 : Z → bool) (k : Z) (ip p2pPort : pyval)
        (clusterPortStart : Z) (dbPrefix : str) :
  0 ≤ k → is_p2 (2 ^ k) = true →
  member "shard_masks"
    <$> config_slaves (create_cluster_config is_p2 (2 ^ k) ip p2pPort clusterPortStart dbPrefix)
  = (λ i, Some (PyList [PyInt (2 ^ k + i)])) <$> range (2 ^ k) ∧
  NoDup (member "shard_masks"
    <$> config_slaves (create_cluster_config is_p2 (2 ^ k) ip p2pPort clusterPortStart dbPrefix)) ∧
  ∀ i, 0 ≤ i < 2 ^ k →
    Z.testbit (2 ^ k + i) k = true ∧ Z.land (2 ^ k + i) (2 ^ k - 1) = i.
Proof.
  intros Hk Hp2.
  destruct (create_cluster_config_made is_p2 (2 ^ k) ip p2pPort clusterPortStart dbPrefix)
    as (_ & _ & _ & ->).
  { unfold create_cluster_config. rewrite Hp2, bool_decide_eq_false_2; [done|].
    pose proof (Z.pow_pos_nonneg 2 k). lia. }
  match goal with |- ?masks = ?shifted ∧ _ => assert (masks = shifted) as Hmasks end.
  { rewrite <- list_fmap_compose. apply list_fmap_ext.
    intros n i Hi. cbn. rewrite lor_pow2; [done..|].
    apply elem_of_range. by eapply list_elem_of_lookup_2. }
  split; [exact Hmasks|]. split.
  - rewrite Hmasks. apply NoDup_fmap_2; [|apply range_NoDup].
    intros a b [= Hab]. lia.
  - intros i Hi. split.
    + rewrite <- lor_pow2 by done. rewrite Z.lor_spec, Z.pow2_bits_true by done.
      apply orb_true_r.
    + change (2 ^ k - 1) with (Z.pred (2 ^ k)). rewrite <- Z.ones_equiv, Z.land_ones by done.
      rewrite <- (Z.mul_1_l (2 ^ k)) at 1. rewrite Z.add_comm, Z.mod_add by lia.
      by apply Z.mod_small.
Qed.

(** In a configuration that is made, the slaves are named [S0], [S1], ... in
    order, no two have the same name, and no two of the master and the slaves
    have the same database path. *)
Theorem create_cluster_config_names (is_p2 : Z → bool) (slaveCount : Z) (ip p2pPort : pyval)
        (clusterPortStart : Z) (dbPrefix : str) (config master : pyval) :
  create_cluster_config is_p2 slaveCount ip p2pPort clusterPortStart dbPrefix = config →
  config_master config = Some master →
  member "id" <$> config_slaves config
  = (λ i, Some (PyStr (lit "S" ++ str_of_Z i))) <$> range slaveCount ∧
  NoDup (member "id" <$> config_slaves config) ∧
  NoDup (member "db_path" <$> (master :: config_slaves config)).
Proof.
  intros <- Hmaster.
  destruct (create_cluster_config_made is_p2 slaveCount ip p2pPort clusterPortStart dbPrefix)
    as (_ & _ & Hm & Hslaves).
  { intros Hnone. by rewrite Hnone in Hmaster. }
  rewrite Hm in Hmaster. injection Hmaster as <-. rewrite Hslaves.
  rewrite <- !list_fmap_compose.
  split; [by apply list_fmap_ext|]. split.
  - apply NoDup_fmap_2; [|apply range_NoDup].
    intros a b [= Hab]. by apply str_of_Z_inj.
  - cbn [fmap list_fmap]. change (list_fmap ?A ?B ?f ?l) with (f <$> l).
    rewrite <- list_fmap_compose. apply NoDup_cons. split.
    + intros (i & [= Hi] & _)%list_elem_of_fmap.
      apply app_inv_head in Hi. by apply (str_of_Z_not_m i).
    + apply NoDup_fmap_2; [|apply range_NoDup].
      intros a b [= Hab]. apply app_inv_head in Hab. by apply str_of_Z_inj.
Qed.

Lemma create_cluster_config_ports_witness :
  ∃ master,
    config_master (create_cluster_config no_bit_below_the_top 4
                     (PyStr (lit "127.0.0.1")) (PyInt 38291) 38000 (lit "db_"))
    = Some master ∧
    length (config_slaves (create_cluster_config no_bit_below_the_top 4
                     (PyStr (lit "127.0.0.1")) (PyInt 38291) 38000 (lit "db_"))) = 4%nat ∧
    member "port" <$> (master :: config_slaves (create_cluster_config no_bit_below_the_top 4
                     (PyStr (lit "127.0.0.1")) (PyInt 38291) 38000 (lit "db_")))
    = [ Some (PyInt 38000); Some (PyInt 38001); Some (PyInt 38002);
        Some (PyInt 38003); Some (PyInt 38004) ] ∧
    NoDup (member "port" <$> (master :: config_slaves (create_cluster_config
                     no_bit_below_the_top 4
                     (PyStr (lit "127.0.0.1")) (PyInt 38291) 38000 (lit "db_")))).
Proof.
  apply (proj2 (create_cluster_config_ports no_bit_below_the_top 4
                  (PyStr (lit "127.0.0.1")) (PyInt 38291) 38000 (lit "db_")) _ eq_refl).
  discriminate.
Defined.

Lemma create_cluster_config_masks_witness :
  member "shard_masks"
    <$> config_slaves (create_cluster_config no_bit_below_the_top 4
                         (PyStr (lit "127.0.0.1")) (PyInt 38291) 38000 (lit "db_"))
  = [ Some (PyList [PyInt 4]); Some (PyList [PyInt 5]);
      Some (PyList [PyInt 6]); Some (PyList [PyInt 7]) ].
Proof.
  exact (proj1 (create_cluster_config_masks no_bit_below_the_top 2
                  (PyStr (lit "127.0.0.1")) (PyInt 38291) 38000 (lit "db_")
                  ltac:(lia) eq_refl)).
Defined.

Lemma create_cluster_config_names_witness :
  member "id" <$> config_slaves (create_cluster_config no_bit_below_the_top 2
                         (PyStr (lit "127.0.0.1")) (PyInt 38291) 38000 (lit "db_"))
  = [ Some (PyStr (lit "S0")); Some (PyStr (lit "S1")) ].
Proof.
  exact (proj1 (create_cluster_config_names no_bit_below_the_top 2
                  (PyStr (lit "127.0.0.1")) (PyInt 38291) 38000 (lit "db_") _ _
                  eq_refl eq_refl)).
Defined.
